(** * TicketSystem: ticket lifecycle and team membership

    A shallow embedding of [tickets/repository/ticket.py] and of the
    membership handlers of [tickets/routers/team_user.py].

    The relational store is a record of tables.  Tables reached through a
    primary key ([db.get], [filter_by(id=...)]) are finite maps from the key
    to the row; association tables are lists of rows, in storage order,
    because [.first()] picks the first matching row.  Every handler is a
    computation in a state-and-exception monad over the store: a [raise]
    returns the store as the handler left it. *)

From stdpp Require Import gmap strings list fin_maps pretty.

Local Open Scope Z_scope.

(** ** Enumerations *)

Module Enums.

(** Modelled from the spec: [tickets/enums.py] is not part of the sources.
    The status enumeration has the three members of the lifecycle
    [open -> in_progress -> closed]; the name and the value of a member are
    the same identifier, the one used as a key of
    [ALLOWED_STATUS_TRANSITIONS]. *)
Inductive TicketStatus := open | in_progress | closed.

Definition status_value (s : TicketStatus) : string :=
  match s with
  | open => "open"
  | in_progress => "in_progress"
  | closed => "closed"
  end.

Definition status_name (s : TicketStatus) : string := status_value s.

(** Modelled from the spec: ticket type is [worker] or another variant. *)
Inductive TicketType := TicketType_worker | TicketType_other.

(** Modelled from the spec: priority is low, medium or high. *)
Inductive TicketPriority := low | medium | high.

(** Modelled from the spec: team memberships are tagged admin or member. *)
Inductive TeamRole := TeamRole_admin | TeamRole_member.

(** Modelled from the spec: the role stored on a project membership.  The
    source compares it with [ProjectRole.admin], [ProjectRole.member] and
    [WorkerRole.worker]; the three are distinct values. *)
Inductive ProjectRole := ProjectRole_admin | ProjectRole_member | WorkerRole_worker.

#[export] Instance TicketStatus_eq_dec : EqDecision TicketStatus.
Proof. solve_decision. Defined.
#[export] Instance TicketType_eq_dec : EqDecision TicketType.
Proof. solve_decision. Defined.
#[export] Instance TicketPriority_eq_dec : EqDecision TicketPriority.
Proof. solve_decision. Defined.
#[export] Instance TeamRole_eq_dec : EqDecision TeamRole.
Proof. solve_decision. Defined.
#[export] Instance ProjectRole_eq_dec : EqDecision ProjectRole.
Proof. solve_decision. Defined.

End Enums.
Export Enums.

(** ** Rows and tables *)

(** Modelled from the spec: [tickets/models.py] is not part of the sources.
    A row carries the columns that the handlers read and write, which are
    the ones section 3 of the spec lists for the entity. *)

(** A [datetime] is an opaque instant; only its presence matters here. *)
Definition datetime := Z.

Record User := {
  user_name : string;
  is_available : bool;
}.

Record Team := { team_name : string }.

Record Project := {
  project_name : string;
  project_worker_team_id : option Z;
}.

Record UserTeam := {
  ut_user_id : Z;
  ut_team_id : Z;
  ut_role : TeamRole;
  ut_joined_at : datetime;
}.

Record ProjectUser := {
  pu_user_id : Z;
  pu_project_id : Z;
  pu_role : ProjectRole;
}.

(** A ticket row; its primary key is the key of the [tickets] table. *)
Record Ticket := {
  title : string;
  description : string;
  type : TicketType;
  priority : option TicketPriority;
  status : TicketStatus;
  created_by : Z;
  assigned_to : option Z;
  worker_team_id : option Z;
  team_id : Z;
  project_id : Z;
  feedback : option string;
  confirmed : bool;
  created_at : datetime;
  updated_at : option datetime;
  closed_at : option datetime;
}.

Record DB := {
  users : gmap Z User;
  teams : gmap Z Team;
  projects : gmap Z Project;
  user_teams : list UserTeam;
  project_users : list ProjectUser;
  tickets : gmap Z Ticket;
}.

#[export] Instance User_eq_dec : EqDecision User.
Proof. solve_decision. Defined.
#[export] Instance Team_eq_dec : EqDecision Team.
Proof. solve_decision. Defined.
#[export] Instance Project_eq_dec : EqDecision Project.
Proof. solve_decision. Defined.
#[export] Instance UserTeam_eq_dec : EqDecision UserTeam.
Proof. solve_decision. Defined.
#[export] Instance ProjectUser_eq_dec : EqDecision ProjectUser.
Proof. solve_decision. Defined.
#[export] Instance Ticket_eq_dec : EqDecision Ticket.
Proof. solve_decision. Defined.
#[export] Instance DB_eq_dec : EqDecision DB.
Proof. solve_decision. Defined.

(** Attribute assignment on a loaded ticket object. *)
Definition set_status (v : TicketStatus) (t : Ticket) : Ticket :=
  {| title := title t; description := description t; type := type t;
     priority := priority t; status := v; created_by := created_by t;
     assigned_to := assigned_to t; worker_team_id := worker_team_id t;
     team_id := team_id t; project_id := project_id t;
     feedback := feedback t; confirmed := confirmed t;
     created_at := created_at t; updated_at := updated_at t;
     closed_at := closed_at t |}.

Definition set_closed_at (v : option datetime) (t : Ticket) : Ticket :=
  {| title := title t; description := description t; type := type t;
     priority := priority t; status := status t; created_by := created_by t;
     assigned_to := assigned_to t; worker_team_id := worker_team_id t;
     team_id := team_id t; project_id := project_id t;
     feedback := feedback t; confirmed := confirmed t;
     created_at := created_at t; updated_at := updated_at t;
     closed_at := v |}.

Definition set_updated_at (v : option datetime) (t : Ticket) : Ticket :=
  {| title := title t; description := description t; type := type t;
     priority := priority t; status := status t; created_by := created_by t;
     assigned_to := assigned_to t; worker_team_id := worker_team_id t;
     team_id := team_id t; project_id := project_id t;
     feedback := feedback t; confirmed := confirmed t;
     created_at := created_at t; updated_at := v;
     closed_at := closed_at t |}.

Definition set_feedback (v : option string) (t : Ticket) : Ticket :=
  {| title := title t; description := description t; type := type t;
     priority := priority t; status := status t; created_by := created_by t;
     assigned_to := assigned_to t; worker_team_id := worker_team_id t;
     team_id := team_id t; project_id := project_id t;
     feedback := v; confirmed := confirmed t;
     created_at := created_at t; updated_at := updated_at t;
     closed_at := closed_at t |}.

Definition set_confirmed (v : bool) (t : Ticket) : Ticket :=
  {| title := title t; description := description t; type := type t;
     priority := priority t; status := status t; created_by := created_by t;
     assigned_to := assigned_to t; worker_team_id := worker_team_id t;
     team_id := team_id t; project_id := project_id t;
     feedback := feedback t; confirmed := v;
     created_at := created_at t; updated_at := updated_at t;
     closed_at := closed_at t |}.

Definition set_assigned_to (v : option Z) (t : Ticket) : Ticket :=
  {| title := title t; description := description t; type := type t;
     priority := priority t; status := status t; created_by := created_by t;
     assigned_to := v; worker_team_id := worker_team_id t;
     team_id := team_id t; project_id := project_id t;
     feedback := feedback t; confirmed := confirmed t;
     created_at := created_at t; updated_at := updated_at t;
     closed_at := closed_at t |}.

Definition with_tickets (m : gmap Z Ticket) (d : DB) : DB :=
  {| users := users d; teams := teams d; projects := projects d;
     user_teams := user_teams d; project_users := project_users d;
     tickets := m |}.

Definition with_user_teams (l : list UserTeam) (d : DB) : DB :=
  {| users := users d; teams := teams d; projects := projects d;
     user_teams := l; project_users := project_users d;
     tickets := tickets d |}.

Definition with_users (m : gmap Z User) (d : DB) : DB :=
  {| users := m; teams := teams d; projects := projects d;
     user_teams := user_teams d; project_users := project_users d;
     tickets := tickets d |}.

Definition set_is_available (v : bool) (u : User) : User :=
  {| user_name := user_name u; is_available := v |}.

(** ** Exceptions and the handler monad *)

Inductive Exception :=
| HTTPException (status_code : Z) (detail : string)
| AttributeError
| KeyError
| ValidationError.

#[export] Instance Exception_eq_dec : EqDecision Exception.
Proof. solve_decision. Defined.

Definition Result (A : Type) : Type := Exception + A.

(** A handler runs on a store and leaves a store and a result. *)
Definition M (A : Type) : Type := DB → DB * Result A.

Definition ret {A} (a : A) : M A := λ d, (d, inr a).
Definition raise {A} (e : Exception) : M A := λ d, (d, inl e).
Definition bind {A B} (m : M A) (k : A → M B) : M B :=
  λ d, match m d with
       | (d', inr a) => k a d'
       | (d', inl e) => (d', inl e)
       end.
Definition query {A} (f : DB → A) : M A := λ d, (d, inr (f d)).
Definition modify (f : DB → DB) : M unit := λ d, (f d, inr tt).

Notation "'let*' x ':=' m 'in' k" := (bind m (λ x, k))
  (at level 10, x name, m at level 100, k at level 200,
   format "'[v' 'let*'  x  :=  m  'in'  '/' k ']'").

(** The three error classes of the service, by status code. *)
Definition fails_with {A} (code : Z) (r : Result A) : Prop :=
  match r with
  | inl (HTTPException c _) => c = code
  | _ => False
  end.

Definition NotFound {A} (r : Result A) : Prop := fails_with 404 r.
Definition Forbidden {A} (r : Result A) : Prop := fails_with 403 r.
Definition BadRequest {A} (r : Result A) : Prop := fails_with 400 r.

Definition succeeds {A} (r : Result A) : Prop :=
  match r with inr _ => True | inl _ => False end.

#[export] Instance fails_with_dec {A} code (r : Result A) : Decision (fails_with code r).
Proof. destruct r as [[]|]; simpl; apply _. Defined.
#[export] Instance succeeds_dec {A} (r : Result A) : Decision (succeeds r).
Proof. destruct r; simpl; apply _. Defined.

(** ** Python idioms *)

(** Truthiness of an [Optional[int]]: [None] and [0] are false. *)
Definition truthy_int (o : option Z) : bool :=
  match o with
  | Some n => negb (n =? 0)
  | None => false
  end.

(** Truthiness of an [Optional[str]]: [None] and the empty string are false. *)
Definition truthy_str (o : option string) : bool :=
  match o with
  | Some s => negb (bool_decide (s = ""))
  | None => false
  end.

(** [a or b]: [a] when it is truthy, else [b]. *)
Definition or_int (a b : option Z) : option Z := if truthy_int a then a else b.
Definition or_str (a b : option string) : option string :=
  if truthy_str a then a else b.

(** ** Hydrated output *)

Record UserBrief := { ub_id : Z; ub_name : string }.
Record WorkerTeamBrief := { wt_id : Z; wt_name : string }.

Record TicketOut := {
  out_title : string;
  out_description : string;
  out_id : Z;
  out_type : TicketType;
  out_status : TicketStatus;
  out_creator : UserBrief;
  out_worker_team : option WorkerTeamBrief;
  out_assignee : option UserBrief;
  out_created_at : datetime;
  out_priority : TicketPriority;
  out_confirmed : bool;
  out_feedback : option string;
}.

(** The [creator], [assignee] and [worker_team] relationships of a ticket:
    the row the foreign key points to, [None] when there is none. *)
Definition user_brief (d : DB) (uid : Z) : option UserBrief :=
  u ← users d !! uid; Some {| ub_id := uid; ub_name := user_name u |}.

(** Modelled from the spec: the worker team of a ticket is a Team. *)
Definition worker_team_brief (d : DB) (tid : Z) : option WorkerTeamBrief :=
  t ← teams d !! tid; Some {| wt_id := tid; wt_name := team_name t |}.

(** [TicketOut.model_validate]: [creator] and [priority] are required, the
    other nested objects are optional. *)
Definition model_validate (d : DB) (ticket_id : Z) (t : Ticket) : Result TicketOut :=
  match user_brief d (created_by t), priority t with
  | Some creator, Some prio =>
      inr {| out_title := title t; out_description := description t;
             out_id := ticket_id; out_type := type t; out_status := status t;
             out_creator := creator;
             out_worker_team := worker_team_id t ≫= worker_team_brief d;
             out_assignee := assigned_to t ≫= user_brief d;
             out_created_at := created_at t; out_priority := prio;
             out_confirmed := confirmed t; out_feedback := feedback t |}
  | _, _ => inl ValidationError
  end.

Definition _load_ticket (ticket_id : Z) : M TicketOut :=
  λ d, match tickets d !! ticket_id with
       | Some t => (d, model_validate d ticket_id t)
       | None => (d, inl ValidationError)
       end.

(** [db.query(Ticket).filter_by(id=ticket_id, project_id=project_id).first()] *)
Definition query_ticket (id pid : Z) (d : DB) : option Ticket :=
  match tickets d !! id with
  | Some t => if bool_decide (project_id t = pid) then Some t else None
  | None => None
  end.

(** Flushing a modified ticket object writes its row. *)
Definition flush_ticket (ticket_id : Z) (t : Ticket) : M unit :=
  modify (λ d, with_tickets (<[ticket_id := t]> (tickets d)) d).

(** [db.commit()]: the pending writes above become durable. *)
Definition db_commit : M unit := ret tt.

(** ** Status transitions *)

Definition ALLOWED_STATUS_TRANSITIONS : gmap string (list string) :=
  {[ "open" := ["in_progress"];
     "in_progress" := ["closed"];
     "closed" := [] ]}.

(** [update_ticket_status_by_assignee]; [current_user] is the id of the
    authenticated user, the two instants are the two clock readings. *)
Definition update_ticket_status_by_assignee
    (now_closed now_updated : datetime)
    (ticket_id project_id : Z) (update_status : TicketStatus)
    (current_user : Z) : M TicketOut :=
  let* found := query (query_ticket ticket_id project_id) in
  match found with
  | None => raise (HTTPException 404 "Ticket not found")
  | Some ticket =>
      if bool_decide (assigned_to ticket ≠ Some current_user)
      then raise (HTTPException 403 "Only assignee can update")
      else
        let curr := status_value (status ticket) in
        let nxt := status_value update_status in
        match ALLOWED_STATUS_TRANSITIONS !! curr with
        | None => raise KeyError
        | Some allowed =>
            if bool_decide (nxt ∉ allowed)
            then raise (HTTPException 400
                          ("Cannot go from " +:+ curr +:+ " to " +:+ nxt))
            else
              let ticket := set_status update_status ticket in
              let ticket :=
                if bool_decide (status_name update_status = "closed")
                then set_closed_at (Some now_closed) ticket
                else ticket in
              let ticket := set_updated_at (Some now_updated) ticket in
              let* _ := flush_ticket ticket_id ticket in
              let* _ := db_commit in
              _load_ticket ticket_id
        end
  end.

(** ** Feedback *)

Module TicketFeedbackUpdate.
Record t := { feedback : option string; confirmed : bool }.
End TicketFeedbackUpdate.

Definition leave_feedback_by_creator
    (now : datetime) (ticket_id project_id : Z)
    (update : TicketFeedbackUpdate.t) (current_user : Z) : M TicketOut :=
  let* found := query (query_ticket ticket_id project_id) in
  match found with
  | None => raise (HTTPException 404 "Ticket not found")
  | Some ticket =>
      if bool_decide (created_by ticket ≠ current_user)
      then raise (HTTPException 403 "Only creator can leave feedback")
      else if bool_decide (status_name (status ticket) ≠ "closed")
      then raise (HTTPException 400 "Feedback only after close")
      else
        let ticket :=
          set_feedback
            (or_str (TicketFeedbackUpdate.feedback update) (feedback ticket))
            ticket in
        let ticket := set_confirmed (TicketFeedbackUpdate.confirmed update) ticket in
        let ticket := set_updated_at (Some now) ticket in
        let* _ := flush_ticket ticket_id ticket in
        let* _ := db_commit in
        _load_ticket ticket_id
  end.

(** ** Reassignment *)

(** [db.query(ProjectUser).filter_by(user_id=.., project_id=.., role=..).first()] *)
Definition query_project_user_with_role
    (uid pid : Z) (r : ProjectRole) (d : DB) : option ProjectUser :=
  head (filter (λ pu, pu_user_id pu = uid ∧ pu_project_id pu = pid ∧ pu_role pu = r)
               (project_users d)).

(** [db.query(ProjectUser).filter_by(user_id=.., project_id=..).first()] *)
Definition query_project_user (uid pid : Z) (d : DB) : option ProjectUser :=
  head (filter (λ pu, pu_user_id pu = uid ∧ pu_project_id pu = pid)
               (project_users d)).

(** [update_ticket_assignee]; [update_assigned_to] is [update.assigned_to]. *)
Definition update_ticket_assignee
    (ticket_id : Z) (update_assigned_to : Z) (project_id : Z) : M TicketOut :=
  let* found := query (query_ticket ticket_id project_id) in
  match found with
  | None => raise (HTTPException 404 "Ticket not found")
  | Some ticket =>
      let* is_admin :=
        query (query_project_user_with_role
                 update_assigned_to project_id ProjectRole_admin) in
      if bool_decide (is_admin = None)
      then raise (HTTPException 403 "Only project admin can reassign")
      else
        let* role_link := query (query_project_user update_assigned_to project_id) in
        match role_link with
        | None => raise (HTTPException 403 "Must be member or worker")
        | Some link =>
            if bool_decide (pu_role link ∉ [ProjectRole_member; WorkerRole_worker])
            then raise (HTTPException 403 "Must be member or worker")
            else
              let* user := query (λ d, users d !! update_assigned_to) in
              match user with
              | None => raise (HTTPException 400 "User not available")
              | Some u =>
                  if negb (is_available u)
                  then raise (HTTPException 400 "User not available")
                  else
                    let ticket := set_assigned_to (Some update_assigned_to) ticket in
                    let* _ := flush_ticket ticket_id ticket in
                    let* _ := db_commit in
                    _load_ticket ticket_id
              end
        end
  end.

(** ** Deletion *)

(** [current_user.project_users]: the membership rows of a user. *)
Definition project_users_of (uid : Z) (d : DB) : list ProjectUser :=
  filter (λ pu, pu_user_id pu = uid) (project_users d).

Definition delete_ticket (ticket_id project_id : Z) (current_user : Z) : M unit :=
  let* found := query (query_ticket ticket_id project_id) in
  match found with
  | None => raise (HTTPException 404 "Ticket not found")
  | Some ticket =>
      let is_creator := bool_decide (created_by ticket = current_user) in
      let* memberships := query (project_users_of current_user) in
      let is_admin :=
        existsb (λ pu, bool_decide (pu_project_id pu = project_id)
                       && bool_decide (pu_role pu = ProjectRole_admin))
                memberships in
      if negb (is_creator || is_admin)
      then raise (HTTPException 403 "Not permitted")
      else
        let* _ := modify (λ d, with_tickets (delete ticket_id (tickets d)) d) in
        db_commit
  end.

(** ** Creation *)

Module TicketCreate.
Record t := {
  title : string;
  description : string;
  type : TicketType;
  team_id : option Z;
  project_id : option Z;
  assigned_to_name : option string;
  assigned_to : option Z;
  worker_team_id : option Z;
  priority : option TicketPriority;
}.
End TicketCreate.

(** [user.teams]: the teams reached through the membership rows of a user,
    as their ids. *)
Definition teams_of (uid : Z) (d : DB) : list Z :=
  omap (λ ut, if bool_decide (ut_user_id ut = uid)
              then _ ← teams d !! ut_team_id ut; Some (ut_team_id ut)
              else None)
       (user_teams d).

(** The key the store gives to a new row: one more than the largest key. *)
Definition autoincrement {V} (m : gmap Z V) : Z :=
  1 + map_fold (λ k _ acc, Z.max k acc) 0 m.

(** Modelled from the spec: the column defaults of [models.Ticket], which is
    not part of the sources.  A new ticket starts the lifecycle at [open],
    has no feedback, is not confirmed and is not closed; [created_at] is the
    instant of insertion. *)
Definition Ticket_new
    (now : datetime) (title description : string) (type : TicketType)
    (priority : option TicketPriority) (created_by : Z)
    (assigned_to worker_team_id : option Z) (team_id project_id : Z) : Ticket :=
  {| title := title; description := description; type := type;
     priority := priority; status := open; created_by := created_by;
     assigned_to := assigned_to; worker_team_id := worker_team_id;
     team_id := team_id; project_id := project_id;
     feedback := None; confirmed := false;
     created_at := now; updated_at := None; closed_at := None |}.

Section Create.

(** The store's case-insensitive [LIKE]: [ilike name pattern]. *)
Variable ilike : string → string → bool.

Definition _resolve_assignee
    (assignee_name : option string) (project_id : Z) : M (option Z) :=
  if negb (truthy_str assignee_name) then ret None
  else
    let pattern := "%" +:+ default "" assignee_name +:+ "%" in
    let* user :=
      query (λ d,
        head (omap (λ pu,
                      u ← users d !! pu_user_id pu;
                      if bool_decide (pu_project_id pu = project_id)
                         && ilike (user_name u) pattern
                      then Some (pu_user_id pu) else None)
                   (project_users d))) in
    match user with
    | None => raise (HTTPException 404 "Assignee not found in this project")
    | Some uid => ret (Some uid)
    end.

(** The worker team of a new ticket (lines 67-75 of the source). *)
Definition resolve_worker_team
    (ticket_in : TicketCreate.t) (project : Project) : M (option Z) :=
  match TicketCreate.worker_team_id ticket_in with
  | Some explicit =>
      if bool_decide (project_worker_team_id project ≠ Some explicit)
      then raise (HTTPException 400 "Worker team not assigned to this project")
      else ret (Some explicit)
  | None =>
      if bool_decide (TicketCreate.type ticket_in = TicketType_worker)
      then
        if negb (truthy_int (project_worker_team_id project))
        then raise (HTTPException 400 "No worker team assigned to project")
        else ret (project_worker_team_id project)
      else ret None
  end.

(** The effective team id (lines 39-44 of the source). *)
Definition resolve_team
    (ticket_in : TicketCreate.t) (user_id : Z) (team_id : option Z) : M Z :=
  let team_id := or_int team_id (TicketCreate.team_id ticket_in) in
  match team_id with
  | Some tid => ret tid
  | None =>
      let* user := query (λ d, users d !! user_id) in
      match user with
      | None => raise AttributeError
      | Some _ =>
          let* user_teams := query (teams_of user_id) in
          match user_teams with
          | [] => raise (HTTPException 400 "Team ID must be provided")
          | first :: _ => ret first
          end
      end
  end.

Definition create_ticket
    (now : datetime) (ticket_in : TicketCreate.t)
    (user_id project_id : Z) (team_id : option Z) : M TicketOut :=
  let* team_id := resolve_team ticket_in user_id team_id in
  let* team := query (λ d, teams d !! team_id) in
  match team with
  | None => raise (HTTPException 404 "Team not found")
  | Some _ =>
      let* project := query (λ d, projects d !! project_id) in
      match project with
      | None => raise (HTTPException 404 "Project not found")
      | Some project =>
          let* author_link := query (query_project_user user_id project_id) in
          match author_link with
          | None => raise (HTTPException 403 "You are not a member of this project")
          | Some _ =>
              let* assigned_user_id :=
                _resolve_assignee (TicketCreate.assigned_to_name ticket_in)
                                  project_id in
              let* assigned_worker_team_id :=
                resolve_worker_team ticket_in project in
              let ticket :=
                Ticket_new now
                  (TicketCreate.title ticket_in)
                  (TicketCreate.description ticket_in)
                  (TicketCreate.type ticket_in)
                  (TicketCreate.priority ticket_in)
                  user_id assigned_user_id assigned_worker_team_id
                  team_id project_id in
              let* ticket_id := query (λ d, autoincrement (tickets d)) in
              let* _ := flush_ticket ticket_id ticket in
              let* _ := db_commit in
              _load_ticket ticket_id
          end
      end
  end.

End Create.

(** A case-insensitive substring test over ASCII, one [ilike] for patterns
    of the shape [%text%] whose text has no wildcard. *)
Definition lower_ascii (c : Ascii.ascii) : Ascii.ascii :=
  let n := Ascii.nat_of_ascii c in
  if (65 <=? n)%nat && (n <=? 90)%nat then Ascii.ascii_of_nat (n + 32) else c.

Fixpoint lower (s : string) : string :=
  match s with
  | EmptyString => EmptyString
  | String c s' => String (lower_ascii c) (lower s')
  end.

Fixpoint is_infix (needle hay : string) : bool :=
  String.prefix needle hay
  || match hay with
     | EmptyString => false
     | String _ hay' => is_infix needle hay'
     end.

Definition strip_percent (p : string) : string :=
  String.substring 1 (String.length p - 2) p.

Definition ilike_infix (name pattern : string) : bool :=
  is_infix (lower (strip_percent pattern)) (lower name).

(** ** Team membership *)

(** [current_user.user_teams]: the team membership rows of a user. *)
Definition user_teams_of (uid : Z) (d : DB) : list UserTeam :=
  filter (λ ut, ut_user_id ut = uid) (user_teams d).

Definition _ensure_team_admin (user : Z) (team_id : Z) : M unit :=
  let* rows := query (user_teams_of user) in
  if negb (existsb (λ ut, bool_decide (ut_team_id ut = team_id)
                          && bool_decide (ut_role ut = TeamRole_admin)) rows)
  then raise (HTTPException 403 "Requires team admin role.")
  else ret tt.

(** [add_user_to_team]; [role] is the query parameter, [None] when the
    request does not carry it, and then [TeamRole.member] is used. *)
Definition add_user_to_team
    (now : datetime) (user_id team_id : Z) (role : option TeamRole)
    (current_user : Z) : M UserTeam :=
  let role := default TeamRole_member role in
  let* _ := _ensure_team_admin current_user team_id in
  let* exists_ :=
    query (λ d, head (filter (λ ut, ut_user_id ut = user_id ∧ ut_team_id ut = team_id)
                             (user_teams d))) in
  match exists_ with
  | Some _ => raise (HTTPException 400 "User already in team")
  | None =>
      let association :=
        {| ut_user_id := user_id; ut_team_id := team_id;
           ut_role := role; ut_joined_at := now |} in
      let* _ := modify (λ d, with_user_teams (user_teams d ++ [association]) d) in
      let* _ := db_commit in
      ret association
  end.

(** [remove_user_from_team]: the bulk delete removes the matching rows and
    gives their number; the answer on success is an empty 204 response. *)
Definition remove_user_from_team
    (user_id team_id : Z) (current_user : Z) : M unit :=
  let* _ := _ensure_team_admin current_user team_id in
  let* deleted :=
    query (λ d, length (filter (λ ut, ut_user_id ut = user_id ∧ ut_team_id ut = team_id)
                               (user_teams d))) in
  let* _ :=
    modify (λ d, with_user_teams
                   (filter (λ ut, ¬ (ut_user_id ut = user_id ∧ ut_team_id ut = team_id))
                           (user_teams d)) d) in
  if bool_decide (deleted = 0%nat)
  then raise (HTTPException 404 "User not in this team")
  else db_commit.

(** [update_my_availability]: the row of the caller, written and read back. *)
Definition update_my_availability
    (is_available : bool) (current_user : Z) : M (option User) :=
  let* _ :=
    modify (λ d, with_users
                   (alter (set_is_available is_available) current_user (users d)) d) in
  let* _ := db_commit in
  query (λ d, users d !! current_user).

(** ** Stated properties *)

(** The table of allowed transitions, read as a relation on statuses. *)
Definition one_step (curr nxt : TicketStatus) : Prop :=
  (curr = open ∧ nxt = in_progress) ∨ (curr = in_progress ∧ nxt = closed).

#[export] Instance one_step_dec curr nxt : Decision (one_step curr nxt).
Proof. unfold one_step. apply _. Defined.

(** A ticket with this id exists in this project. *)
Definition ticket_in_project (d : DB) (ticket_id pid : Z) (t : Ticket) : Prop :=
  tickets d !! ticket_id = Some t ∧ project_id t = pid.

(** The store after a handler has written one ticket row. *)
Definition stored (d : DB) (ticket_id : Z) (t : Ticket) : DB :=
  with_tickets (<[ticket_id := t]> (tickets d)) d.

(** [closed_at] is set exactly on closed tickets. *)
Definition closed_at_iff_closed (t : Ticket) : Prop :=
  is_Some (closed_at t) ↔ status t = closed.

Definition ticket_invariant (d : DB) : Prop :=
  map_Forall (λ _ t, closed_at_iff_closed t) (tickets d).

(** A user has at most one membership row per project. *)
Definition unique_project_memberships (d : DB) : Prop :=
  NoDup ((λ pu, (pu_user_id pu, pu_project_id pu)) <$> project_users d).

(** The two role checks of a reassignment, on the target user. *)
Definition holds_admin_row (d : DB) (uid pid : Z) : Prop :=
  is_Some (query_project_user_with_role uid pid ProjectRole_admin d).

Definition first_row_member_or_worker (d : DB) (uid pid : Z) : Prop :=
  ∃ link, query_project_user uid pid d = Some link
          ∧ (pu_role link = ProjectRole_member ∨ pu_role link = WorkerRole_worker).

(** Two ticket rows that differ at most in [assigned_to]. *)
Definition same_but_assignee (t t' : Ticket) : Prop :=
  title t' = title t ∧ description t' = description t ∧ type t' = type t
  ∧ priority t' = priority t ∧ status t' = status t
  ∧ created_by t' = created_by t ∧ worker_team_id t' = worker_team_id t
  ∧ team_id t' = team_id t ∧ project_id t' = project_id t
  ∧ feedback t' = feedback t ∧ confirmed t' = confirmed t
  ∧ created_at t' = created_at t ∧ updated_at t' = updated_at t
  ∧ closed_at t' = closed_at t.

(** Two ticket rows that differ at most in what feedback writes. *)
Definition same_but_feedback (t t' : Ticket) : Prop :=
  title t' = title t ∧ description t' = description t ∧ type t' = type t
  ∧ priority t' = priority t ∧ status t' = status t
  ∧ created_by t' = created_by t ∧ assigned_to t' = assigned_to t
  ∧ worker_team_id t' = worker_team_id t
  ∧ team_id t' = team_id t ∧ project_id t' = project_id t
  ∧ created_at t' = created_at t ∧ closed_at t' = closed_at t.

(** Team membership, as rows of the association table. *)
Definition team_row (d : DB) (uid tid : Z) (ut : UserTeam) : Prop :=
  ut ∈ user_teams d ∧ ut_user_id ut = uid ∧ ut_team_id ut = tid.

Definition team_admin (d : DB) (uid tid : Z) : Prop :=
  ∃ ut, team_row d uid tid ut ∧ ut_role ut = TeamRole_admin.

Definition team_member (d : DB) (uid tid : Z) : Prop :=
  ∃ ut, team_row d uid tid ut.

(** The steps of [create_ticket] after the team is resolved and before the
    worker team is: the team and the project exist, the author is a member
    of the project, and the assignee name, if any, resolves to [assignee]. *)
Definition passes_checks
    (ilike : string → string → bool) (ticket_in : TicketCreate.t)
    (user_id pid team : Z) (d : DB) (project : Project)
    (assignee : option Z) : Prop :=
  is_Some (teams d !! team)
  ∧ projects d !! pid = Some project
  ∧ is_Some (query_project_user user_id pid d)
  ∧ (_resolve_assignee ilike (TicketCreate.assigned_to_name ticket_in) pid d).2
    = inr assignee.

(** The row [create_ticket] inserts. *)
Definition new_row
    (now : datetime) (ticket_in : TicketCreate.t) (uid pid team : Z)
    (assignee wteam : option Z) : Ticket :=
  Ticket_new now (TicketCreate.title ticket_in) (TicketCreate.description ticket_in)
    (TicketCreate.type ticket_in) (TicketCreate.priority ticket_in)
    uid assignee wteam team pid.

(** ** A sample store *)

Module Sample.

Definition ticket (st : TicketStatus) (asg : option Z) (cl : option datetime) : Ticket :=
  {| title := "Printer jams"; description := "Tray 2"; type := TicketType_worker;
     priority := Some medium; status := st; created_by := 1;
     assigned_to := asg; worker_team_id := None; team_id := 1; project_id := 1;
     feedback := Some "thanks"; confirmed := false; created_at := 0;
     updated_at := None; closed_at := cl |}.

(** Alice (1) administers team 1 and project 1; Bob (2) is a member of the
    project and unavailable; Carol (3) belongs to no team and no project.
    Ticket 10 is open, ticket 11 is closed. *)
Definition db : DB :=
  {| users := {[ 1 := {| user_name := "Alice"; is_available := true |};
                 2 := {| user_name := "Bob"; is_available := false |};
                 3 := {| user_name := "Carol"; is_available := true |} ]};
     teams := {[ 1 := {| team_name := "core" |}; 7 := {| team_name := "field" |} ]};
     projects := {[ 1 := {| project_name := "office";
                            project_worker_team_id := Some 7 |};
                    2 := {| project_name := "lab";
                            project_worker_team_id := None |} ]};
     user_teams := [ {| ut_user_id := 1; ut_team_id := 1;
                        ut_role := TeamRole_admin; ut_joined_at := 0 |};
                     {| ut_user_id := 2; ut_team_id := 1;
                        ut_role := TeamRole_member; ut_joined_at := 0 |} ];
     project_users := [ {| pu_user_id := 1; pu_project_id := 1;
                           pu_role := ProjectRole_admin |};
                        {| pu_user_id := 2; pu_project_id := 1;
                           pu_role := ProjectRole_member |};
                        {| pu_user_id := 1; pu_project_id := 2;
                           pu_role := ProjectRole_admin |} ];
     tickets := {[ 10 := ticket open (Some 1) None;
                   11 := ticket closed (Some 1) (Some 5) ]} |}.

(** The same store with a second membership row for Bob in project 1, this
    one with the admin role: the pair (user, project) is no longer unique. *)
Definition db_two_rows : DB :=
  {| users := users db; teams := teams db; projects := projects db;
     user_teams := user_teams db;
     project_users := project_users db
                      ++ [ {| pu_user_id := 2; pu_project_id := 1;
                              pu_role := ProjectRole_admin |};
                           {| pu_user_id := 3; pu_project_id := 1;
                              pu_role := WorkerRole_worker |};
                           {| pu_user_id := 3; pu_project_id := 1;
                              pu_role := ProjectRole_admin |} ];
     tickets := tickets db |}.


Definition request (ty : TicketType) (team wteam : option Z) : TicketCreate.t :=
  {| TicketCreate.title := "Badge reader"; TicketCreate.description := "Door 3";
     TicketCreate.type := ty; TicketCreate.team_id := team;
     TicketCreate.project_id := None;
     TicketCreate.assigned_to_name := Some "ALI";
     TicketCreate.assigned_to := None;
     TicketCreate.worker_team_id := wteam;
     TicketCreate.priority := Some medium |}.

End Sample.

(** ** Proof tactics *)

Ltac run :=
  unfold bind, query, raise, ret, modify, db_commit, flush_ticket; simpl.

(** * The remaining handlers *)

(** ** Reading tickets *)

Definition get_ticket_by_id (ticket_id project_id : Z) : M TicketOut :=
  let* ticket := query (query_ticket ticket_id project_id) in
  match ticket with
  | None =>
      raise (HTTPException 404 ("Ticket " +:+ pretty ticket_id +:+ " not found"))
  | Some t => λ d, (d, model_validate d ticket_id t)
  end.

(** [.filter_by(...).all()]: the selected rows with their keys. *)
Definition select_tickets
    (P : Ticket → Prop) `{!∀ t, Decision (P t)} (d : DB) : list (Z * Ticket) :=
  map_to_list (filter (λ kt, P kt.2) (tickets d)).

(** [[TicketOut.model_validate(t) for t in tickets]]: the first row that
    does not validate raises. *)
Fixpoint validate_all (d : DB) (rows : list (Z * Ticket)) : Result (list TicketOut) :=
  match rows with
  | [] => inr []
  | (k, t) :: rest =>
      match model_validate d k t with
      | inl e => inl e
      | inr out =>
          match validate_all d rest with
          | inl e => inl e
          | inr outs => inr (out :: outs)
          end
      end
  end.

(** The three [filter_by] conditions. *)
Definition of_project (pid : Z) (t : Ticket) : Prop := project_id t = pid.

Definition created_in_project (uid pid : Z) (t : Ticket) : Prop :=
  created_by t = uid ∧ project_id t = pid.

Definition assigned_and_active (uid pid : Z) (t : Ticket) : Prop :=
  assigned_to t = Some uid ∧ project_id t = pid
  ∧ status t ∈ [open; in_progress].

#[export] Instance of_project_dec pid t : Decision (of_project pid t).
Proof. unfold of_project. apply _. Defined.
#[export] Instance created_in_project_dec uid pid t :
  Decision (created_in_project uid pid t).
Proof. unfold created_in_project. apply _. Defined.
#[export] Instance assigned_and_active_dec uid pid t :
  Decision (assigned_and_active uid pid t).
Proof. unfold assigned_and_active. apply _. Defined.

Definition get_all_tickets (project_id : Z) : M (list TicketOut) :=
  λ d, (d, validate_all d (select_tickets (of_project project_id) d)).

Definition get_user_tickets (user_id project_id : Z) : M (list TicketOut) :=
  λ d, (d, validate_all d
             (select_tickets (created_in_project user_id project_id) d)).

Definition get_tickets_assigned_to_user
    (current_user : Z) (project_id : Z) : M (list TicketOut) :=
  let* memberships := query (project_users_of current_user) in
  if negb (existsb (λ pu, bool_decide (pu_project_id pu = project_id)) memberships)
  then raise (HTTPException 403 "Not a project member")
  else λ d, (d, validate_all d
                  (select_tickets (assigned_and_active current_user project_id) d)).

(** ** Schema defaults *)

(** [TicketCreate(title=.., description=..)]: every other field at the
    default of the schema. *)
Definition TicketCreate_defaults (title description : string) : TicketCreate.t :=
  {| TicketCreate.title := title; TicketCreate.description := description;
     TicketCreate.type := TicketType_worker; TicketCreate.team_id := None;
     TicketCreate.project_id := None; TicketCreate.assigned_to_name := None;
     TicketCreate.assigned_to := None; TicketCreate.worker_team_id := None;
     TicketCreate.priority := Some medium |}.

(** ** Further stated properties *)

(** The answer is one of the service's HTTP errors. *)
Definition http_error {A} (r : Result A) : Prop :=
  match r with inl (HTTPException _ _) => True | _ => False end.

(** The position of a status in the lifecycle. *)
Definition status_rank (s : TicketStatus) : Z :=
  match s with open => 0 | in_progress => 1 | closed => 2 end.

(** Feedback and confirmation are written on closed tickets only. *)
Definition feedback_only_closed (t : Ticket) : Prop :=
  status t ≠ closed → feedback t = None ∧ confirmed t = false.

Definition feedback_invariant (d : DB) : Prop :=
  map_Forall (λ _ t, feedback_only_closed t) (tickets d).

(** A user has at most one membership row per team. *)
Definition unique_team_memberships (d : DB) : Prop :=
  NoDup ((λ ut, (ut_user_id ut, ut_team_id ut)) <$> user_teams d).

(** The tables other than [tickets] are the same. *)
Definition same_but_tickets (d d' : DB) : Prop :=
  users d' = users d ∧ teams d' = teams d ∧ projects d' = projects d
  ∧ user_teams d' = user_teams d ∧ project_users d' = project_users d.

(** The columns no handler writes after the insertion. *)
Definition same_fixed_columns (t t' : Ticket) : Prop :=
  title t' = title t ∧ description t' = description t ∧ type t' = type t
  ∧ priority t' = priority t ∧ created_by t' = created_by t
  ∧ worker_team_id t' = worker_team_id t ∧ team_id t' = team_id t
  ∧ project_id t' = project_id t ∧ created_at t' = created_at t.

(** A membership row of a user in a project. *)
Definition project_member (d : DB) (uid pid : Z) : Prop :=
  ∃ pu, pu ∈ project_users d ∧ pu_user_id pu = uid ∧ pu_project_id pu = pid.

Definition project_admin (d : DB) (uid pid : Z) : Prop :=
  ∃ pu, pu ∈ project_users d ∧ pu_user_id pu = uid ∧ pu_project_id pu = pid
        ∧ pu_role pu = ProjectRole_admin.

(** What a listing with condition [P] of the store [d] returned. *)
Definition lists (P : Ticket → Prop) (d : DB) (outs : list TicketOut) : Prop :=
  NoDup (out_id <$> outs)
  ∧ (∀ k, k ∈ out_id <$> outs ↔ ∃ t, tickets d !! k = Some t ∧ P t)
  ∧ (∀ out, out ∈ outs →
       ∃ t, tickets d !! out_id out = Some t ∧ P t
            ∧ model_validate d (out_id out) t = inr out).


(** One call of a writing handler other than [delete_ticket], as a step
    from the store before it to the store after it. *)
Inductive keeping_call (d : DB) : DB → Prop :=
| call_create ilike now ticket_in uid pid override :
    keeping_call d (create_ticket ilike now ticket_in uid pid override d).1
| call_status now_closed now_updated ticket_id pid nxt actor :
    keeping_call d (update_ticket_status_by_assignee
                      now_closed now_updated ticket_id pid nxt actor d).1
| call_feedback now ticket_id pid upd actor :
    keeping_call d (leave_feedback_by_creator now ticket_id pid upd actor d).1
| call_assignee ticket_id target pid :
    keeping_call d (update_ticket_assignee ticket_id target pid d).1
| call_add_user now user_id tid role caller :
    keeping_call d (add_user_to_team now user_id tid role caller d).1
| call_remove_user user_id tid caller :
    keeping_call d (remove_user_from_team user_id tid caller d).1
| call_availability available caller :
    keeping_call d (update_my_availability available caller d).1.

(** One call of any writing handler. *)
Inductive call (d : DB) : DB → Prop :=
| call_keeping d' : keeping_call d d' → call d d'
| call_delete ticket_id pid actor :
    call d (delete_ticket ticket_id pid actor d).1.

(** How a ticket may differ from what it was some calls earlier. *)
Definition later_state (t t' : Ticket) : Prop :=
  status_rank (status t) ≤ status_rank (status t')
  ∧ (status t = closed → status t' = closed ∧ closed_at t' = closed_at t)
  ∧ same_fixed_columns t t'.

(** A handler that names one ticket writes at most that ticket. *)
Definition writes_at_most (ticket_id : Z) (d d' : DB) : Prop :=
  same_but_tickets d d'
  ∧ dom (tickets d') = dom (tickets d)
  ∧ ∀ k, k ≠ ticket_id → tickets d' !! k = tickets d !! k.
(** * Properties *)

(** ** Reading handlers as case analyses *)

Lemma status_value_inj s s' : status_value s = status_value s' → s = s'.
Proof. by destruct s, s'. Qed.

Lemma allowed_lookup curr :
  ∃ l, ALLOWED_STATUS_TRANSITIONS !! status_value curr = Some l
       ∧ ∀ nxt, bool_decide (status_value nxt ∈ l) = bool_decide (one_step curr nxt).
Proof.
  destruct curr; eexists; (split; [reflexivity|]); intros []; reflexivity.
Qed.

Lemma update_status_run now_closed now_updated ticket_id pid nxt actor d :
  update_ticket_status_by_assignee now_closed now_updated ticket_id pid nxt actor d =
  match query_ticket ticket_id pid d with
  | None => (d, inl (HTTPException 404 "Ticket not found"))
  | Some t =>
      if bool_decide (assigned_to t = Some actor)
      then
        if bool_decide (one_step (status t) nxt)
        then
          let t' :=
            set_updated_at (Some now_updated)
              ((if bool_decide (nxt = closed)
                then set_closed_at (Some now_closed) else id)
                 (set_status nxt t)) in
          _load_ticket ticket_id (stored d ticket_id t')
        else (d, inl (HTTPException 400
                        ("Cannot go from " +:+ status_value (status t)
                           +:+ " to " +:+ status_value nxt)))
      else (d, inl (HTTPException 403 "Only assignee can update"))
  end.
Proof.
  unfold update_ticket_status_by_assignee. run.
  destruct (query_ticket ticket_id pid d) as [t|]; [|done].
  rewrite bool_decide_not.
  destruct (bool_decide (assigned_to t = Some actor)); simpl; [|done].
  destruct (allowed_lookup (status t)) as (l & -> & Hl).
  rewrite bool_decide_not, Hl.
  destruct (bool_decide (one_step (status t) nxt)); simpl; [|done].
  by destruct nxt.
Qed.

Lemma query_ticket_Some d ticket_id pid t :
  query_ticket ticket_id pid d = Some t ↔ ticket_in_project d ticket_id pid t.
Proof.
  unfold query_ticket, ticket_in_project.
  destruct (tickets d !! ticket_id) as [t0|].
  - case_bool_decide as Hp; split.
    + by intros [= <-].
    + by intros [[= <-] _].
    + done.
    + intros [[= <-] ?]. by destruct Hp.
  - split; [done | by intros [? _]].
Qed.

Lemma query_ticket_None d ticket_id pid :
  query_ticket ticket_id pid d = None ↔ ∀ t, ¬ ticket_in_project d ticket_id pid t.
Proof.
  split.
  - intros Hq t Ht. apply query_ticket_Some in Ht. congruence.
  - intros Hn. destruct (query_ticket ticket_id pid d) as [t|] eqn:Hq; [|done].
    apply query_ticket_Some in Hq. by destruct (Hn t).
Qed.

Lemma load_stored d ticket_id t :
  _load_ticket ticket_id (stored d ticket_id t)
  = (stored d ticket_id t, model_validate d ticket_id t).
Proof.
  unfold _load_ticket, stored. simpl. by rewrite lookup_insert_eq.
Qed.

Lemma model_validate_succeeds d ticket_id t :
  is_Some (users d !! created_by t) → is_Some (priority t) →
  succeeds (model_validate d ticket_id t).
Proof.
  intros [u Hu] [p Hp]. unfold model_validate, user_brief.
  by rewrite Hu, Hp.
Qed.

(** ** Status transitions *)

(** C1: a status update succeeds only along [open -> in_progress] and
    [in_progress -> closed].  For a ticket of the project whose assignee is
    the caller, every other requested status (the same status, a skip, a
    step back, anything out of [closed]) is answered with 400 and the store
    is left as it was; along the two edges the stored ticket takes the
    requested status, and the call returns the ticket once its creator and
    priority can be read back. *)
Theorem status_transitions_one_way
    now_closed now_updated ticket_id pid nxt actor d :
  let res :=
    update_ticket_status_by_assignee now_closed now_updated ticket_id pid nxt actor d in
  (succeeds res.2 →
     ∃ t, ticket_in_project d ticket_id pid t ∧ one_step (status t) nxt)
  ∧ (∀ t, ticket_in_project d ticket_id pid t → assigned_to t = Some actor →
       ¬ one_step (status t) nxt → BadRequest res.2 ∧ res.1 = d)
  ∧ (∀ t, ticket_in_project d ticket_id pid t → assigned_to t = Some actor →
       one_step (status t) nxt →
       (∃ t', tickets res.1 !! ticket_id = Some t' ∧ status t' = nxt)
       ∧ (is_Some (users d !! created_by t) → is_Some (priority t) →
          succeeds res.2)).
Proof.
  simpl. rewrite update_status_run. split; [|split].
  - destruct (query_ticket ticket_id pid d) as [t|] eqn:Hq; [|done].
    apply query_ticket_Some in Hq.
    destruct (bool_decide (assigned_to t = Some actor)); [|done].
    case_bool_decide as Hstep; [|done]. intros _. by exists t.
  - intros t Ht%query_ticket_Some Ha Hstep. rewrite Ht.
    rewrite bool_decide_eq_true_2, bool_decide_eq_false_2 by done. done.
  - intros t Ht%query_ticket_Some Ha Hstep. rewrite Ht.
    rewrite !bool_decide_eq_true_2 by done. rewrite load_stored. simpl. split.
    + rewrite lookup_insert_eq. eexists. split; [done|].
      by case_bool_decide.
    + intros Hu Hp. apply model_validate_succeeds; by case_bool_decide.
Qed.

(** C8: a status update on a ticket that is not in the project is answered
    with 404, and on a ticket whose assignee is not the caller with 403,
    whatever status is requested; the store is left as it was. *)
Theorem status_update_guards
    now_closed now_updated ticket_id pid nxt actor d :
  let res :=
    update_ticket_status_by_assignee now_closed now_updated ticket_id pid nxt actor d in
  ((∀ t, ¬ ticket_in_project d ticket_id pid t) → NotFound res.2 ∧ res.1 = d)
  ∧ (∀ t, ticket_in_project d ticket_id pid t → assigned_to t ≠ Some actor →
       Forbidden res.2 ∧ res.1 = d).
Proof.
  simpl. rewrite update_status_run. split.
  - intros Hn%query_ticket_None. by rewrite Hn.
  - intros t Ht%query_ticket_Some Ha. rewrite Ht.
    by rewrite bool_decide_eq_false_2.
Qed.

Lemma status_transitions_one_way_witness :
  BadRequest (update_ticket_status_by_assignee 100 101 10 1 closed 1 Sample.db).2
  ∧ (update_ticket_status_by_assignee 100 101 10 1 closed 1 Sample.db).1 = Sample.db.
Proof.
  apply (proj1 (proj2 (status_transitions_one_way 100 101 10 1 closed 1 Sample.db))
           (Sample.ticket open (Some 1) None)).
  - split; reflexivity.
  - reflexivity.
  - intros [[_ Hn]|[Hc _]]; discriminate.
Defined.

Lemma status_update_guards_witness :
  Forbidden (update_ticket_status_by_assignee 100 101 10 1 in_progress 2 Sample.db).2
  ∧ (update_ticket_status_by_assignee 100 101 10 1 in_progress 2 Sample.db).1 = Sample.db.
Proof.
  apply (proj2 (status_update_guards 100 101 10 1 in_progress 2 Sample.db)
           (Sample.ticket open (Some 1) None)).
  - split; reflexivity.
  - simpl. intros [= H].
Defined.

(** ** Feedback *)

Lemma leave_feedback_run now ticket_id pid upd actor d :
  leave_feedback_by_creator now ticket_id pid upd actor d =
  match query_ticket ticket_id pid d with
  | None => (d, inl (HTTPException 404 "Ticket not found"))
  | Some t =>
      if bool_decide (created_by t = actor)
      then
        if bool_decide (status t = closed)
        then
          let t' :=
            set_updated_at (Some now)
              (set_confirmed (TicketFeedbackUpdate.confirmed upd)
                 (set_feedback
                    (or_str (TicketFeedbackUpdate.feedback upd) (feedback t)) t)) in
          (stored d ticket_id t', model_validate d ticket_id t')
        else (d, inl (HTTPException 400 "Feedback only after close"))
      else (d, inl (HTTPException 403 "Only creator can leave feedback"))
  end.
Proof.
  unfold leave_feedback_by_creator. run.
  destruct (query_ticket ticket_id pid d) as [t|]; [|done].
  rewrite bool_decide_not.
  destruct (bool_decide (created_by t = actor)); simpl; [|done].
  assert (bool_decide (status_name (status t) ≠ "closed")
          = negb (bool_decide (status t = closed))) as -> by by destruct (status t).
  destruct (bool_decide (status t = closed)); simpl; [|done].
  apply load_stored.
Qed.

Lemma or_str_cases (supplied current : option string) :
  or_str supplied current =
  match supplied with
  | Some s => if decide (s = "") then current else Some s
  | None => current
  end.
Proof.
  unfold or_str, truthy_str. destruct supplied as [s|]; [|done].
  case_bool_decide; by case_decide.
Qed.

(** C5: feedback on a ticket that is not in the project is answered with
    404, by anyone but the creator with 403, and on a ticket that is not
    closed with 400, the store being left as it was.  Otherwise the stored
    ticket takes the supplied [confirmed] flag, takes the supplied feedback
    when it is a non-empty string and keeps its feedback when none or the
    empty string is supplied, and has [updated_at] stamped; nothing else of
    the ticket changes, and the ticket read back carries the same flag and
    feedback. *)
Theorem feedback_by_creator now ticket_id pid upd actor d :
  let res := leave_feedback_by_creator now ticket_id pid upd actor d in
  ((∀ t, ¬ ticket_in_project d ticket_id pid t) → NotFound res.2 ∧ res.1 = d)
  ∧ (∀ t, ticket_in_project d ticket_id pid t → created_by t ≠ actor →
       Forbidden res.2 ∧ res.1 = d)
  ∧ (∀ t, ticket_in_project d ticket_id pid t → created_by t = actor →
       status t ≠ closed → BadRequest res.2 ∧ res.1 = d)
  ∧ (∀ t, ticket_in_project d ticket_id pid t → created_by t = actor →
       status t = closed →
       ∃ t', tickets res.1 !! ticket_id = Some t'
         ∧ confirmed t' = TicketFeedbackUpdate.confirmed upd
         ∧ feedback t' =
             match TicketFeedbackUpdate.feedback upd with
             | Some s => if decide (s = "") then feedback t else Some s
             | None => feedback t
             end
         ∧ updated_at t' = Some now
         ∧ same_but_feedback t t'
         ∧ (is_Some (users d !! created_by t) → is_Some (priority t) →
            ∃ out, res.2 = inr out
                   ∧ out_confirmed out = confirmed t'
                   ∧ out_feedback out = feedback t')).
Proof.
  simpl. rewrite leave_feedback_run. split; [|split; [|split]].
  - intros Hn%query_ticket_None. by rewrite Hn.
  - intros t Ht%query_ticket_Some Hc. rewrite Ht.
    by rewrite bool_decide_eq_false_2.
  - intros t Ht%query_ticket_Some Hc Hs. rewrite Ht.
    by rewrite bool_decide_eq_true_2, bool_decide_eq_false_2.
  - intros t Ht%query_ticket_Some Hc Hs. rewrite Ht.
    rewrite !bool_decide_eq_true_2 by done. rewrite or_str_cases.
    cbn [fst snd stored with_tickets tickets].
    rewrite lookup_insert_eq. eexists. split; [done|].
    repeat split.
    intros [u Hu] [p Hp]. unfold model_validate, user_brief. simpl.
    rewrite Hu, Hp. simpl. by eexists.
Qed.

Lemma feedback_by_creator_witness :
  ∃ t', tickets (leave_feedback_by_creator 9 11 1
                   {| TicketFeedbackUpdate.feedback := Some "";
                      TicketFeedbackUpdate.confirmed := true |} 1 Sample.db).1
          !! 11 = Some t'
        ∧ confirmed t' = true ∧ feedback t' = Some "thanks".
Proof.
  destruct (proj2 (proj2 (proj2 (feedback_by_creator 9 11 1
              {| TicketFeedbackUpdate.feedback := Some "";
                 TicketFeedbackUpdate.confirmed := true |} 1 Sample.db)))
              (Sample.ticket closed (Some 1) (Some 5)))
    as (t' & Ht' & Hc & Hf & _).
  - split; reflexivity.
  - reflexivity.
  - reflexivity.
  - exists t'. repeat split; assumption.
Defined.

(** ** Reassignment *)

Section FirstRow.
Context {A : Type} (P : A → Prop) `{!∀ x, Decision (P x)}.

Lemma head_filter_Some (l : list A) (x : A) :
  head (filter P l) = Some x → x ∈ l ∧ P x.
Proof.
  intros Hh. apply head_Some_elem_of in Hh.
  by apply list_elem_of_filter in Hh as [? ?].
Qed.

Lemma head_filter_None (l : list A) :
  head (filter P l) = None ↔ ∀ x, x ∈ l → ¬ P x.
Proof.
  rewrite head_None. split.
  - intros Hnil x Hx HP.
    assert (x ∈ filter P l) as Hin by by apply list_elem_of_filter.
    rewrite Hnil in Hin. by apply elem_of_nil in Hin.
  - intros Hall. induction l as [|y l IH]; [done|].
    rewrite filter_cons. case_decide as Hy.
    + destruct (Hall y); [left|done].
    + apply IH. intros x Hx. apply Hall. by right.
Qed.

End FirstRow.

Lemma keyed_rows_agree {A K : Type} (key : A → K) (l : list A) (x y : A) :
  NoDup (key <$> l) → x ∈ l → y ∈ l → key x = key y → x = y.
Proof.
  induction l as [|z l IH]; intros Hnd Hx Hy Hk.
  - by apply elem_of_nil in Hx.
  - rewrite fmap_cons in Hnd. apply NoDup_cons in Hnd as [Hz Hnd].
    apply elem_of_cons in Hx as [->|Hx]; apply elem_of_cons in Hy as [->|Hy].
    + done.
    + destruct Hz. rewrite Hk. by apply list_elem_of_fmap_2.
    + destruct Hz. rewrite <- Hk. by apply list_elem_of_fmap_2.
    + by apply IH.
Qed.

Lemma update_assignee_run ticket_id target pid d :
  update_ticket_assignee ticket_id target pid d =
  match query_ticket ticket_id pid d with
  | None => (d, inl (HTTPException 404 "Ticket not found"))
  | Some t =>
      match query_project_user_with_role target pid ProjectRole_admin d with
      | None => (d, inl (HTTPException 403 "Only project admin can reassign"))
      | Some _ =>
          match query_project_user target pid d with
          | None => (d, inl (HTTPException 403 "Must be member or worker"))
          | Some link =>
              if bool_decide (pu_role link = ProjectRole_member
                              ∨ pu_role link = WorkerRole_worker)
              then
                match users d !! target with
                | None => (d, inl (HTTPException 400 "User not available"))
                | Some u =>
                    if is_available u
                    then
                      let t' := set_assigned_to (Some target) t in
                      (stored d ticket_id t', model_validate d ticket_id t')
                    else (d, inl (HTTPException 400 "User not available"))
                end
              else (d, inl (HTTPException 403 "Must be member or worker"))
          end
      end
  end.
Proof.
  unfold update_ticket_assignee. run.
  destruct (query_ticket ticket_id pid d) as [t|]; [|done].
  destruct (query_project_user_with_role _ _ _ d) as [a|]; simpl; [|done].
  destruct (query_project_user target pid d) as [link|]; simpl; [|done].
  assert (bool_decide (pu_role link ∉ [ProjectRole_member; WorkerRole_worker])
          = negb (bool_decide (pu_role link = ProjectRole_member
                               ∨ pu_role link = WorkerRole_worker))) as ->
    by by destruct (pu_role link).
  destruct (bool_decide (_ ∨ _)); simpl; [|done].
  destruct (users d !! target) as [u|]; simpl; [|done].
  destruct (is_available u); simpl; [|done].
  apply load_stored.
Qed.

(** With one membership row per user and project, the row found by the
    admin query is the row found by the plain query. *)
Lemma admin_row_is_first_row d target pid a link :
  unique_project_memberships d →
  query_project_user_with_role target pid ProjectRole_admin d = Some a →
  query_project_user target pid d = Some link →
  pu_role link = ProjectRole_admin.
Proof.
  intros Hu Ha Hl.
  apply head_filter_Some in Ha as [Ha (Ha1 & Ha2 & Ha3)].
  apply head_filter_Some in Hl as [Hl (Hl1 & Hl2)].
  rewrite <- (keyed_rows_agree _ _ a link Hu Ha Hl); [done|].
  by rewrite Ha1, Ha2, Hl1, Hl2.
Qed.

(** C3: when each user has at most one membership row per project, a
    reassignment never succeeds and never writes: on a ticket that is not
    in the project it is answered with 404, and on a ticket of the project
    with 403, because the target's row cannot both carry the admin role and
    be a member or worker row. *)
Theorem reassign_always_refused ticket_id target pid d :
  unique_project_memberships d →
  let res := update_ticket_assignee ticket_id target pid d in
  ¬ succeeds res.2
  ∧ res.1 = d
  ∧ ((∀ t, ¬ ticket_in_project d ticket_id pid t) → NotFound res.2)
  ∧ (∀ t, ticket_in_project d ticket_id pid t →
       Forbidden res.2
       ∧ ¬ (holds_admin_row d target pid ∧ first_row_member_or_worker d target pid)).
Proof.
  intros Hu. simpl. rewrite update_assignee_run.
  destruct (query_ticket ticket_id pid d) as [t|] eqn:Hq.
  - assert (¬ (holds_admin_row d target pid
               ∧ first_row_member_or_worker d target pid)) as Hboth.
    { intros [[a Ha] (link & Hl & Hr)].
      rewrite (admin_row_is_first_row _ _ _ _ _ Hu Ha Hl) in Hr.
      by destruct Hr. }
    assert (∀ t', ticket_in_project d ticket_id pid t' → t' = t) as Hsame.
    { intros t' Ht'%query_ticket_Some. congruence. }
    assert (¬ ∀ t', ¬ ticket_in_project d ticket_id pid t') as Hex.
    { intros Hn. destruct (Hn t). by apply query_ticket_Some. }
    destruct (query_project_user_with_role _ _ _ d) as [a|] eqn:Ha;
      [destruct (query_project_user target pid d) as [link|] eqn:Hl;
       [rewrite bool_decide_eq_false_2
          by (intros Hr; apply Hboth; split; [by exists a|by exists link])|]|];
      simpl; (split; [tauto|]); (split; [done|]); (split; [done|]);
      by intros t' _.
  - simpl. split; [tauto|]. split; [done|]. split; [done|].
    intros t Ht%query_ticket_Some. congruence.
Qed.

Lemma reassign_always_refused_witness :
  unique_project_memberships Sample.db
  ∧ Forbidden (update_ticket_assignee 10 2 1 Sample.db).2.
Proof.
  assert (unique_project_memberships Sample.db) as Hu.
  { unfold unique_project_memberships. apply (bool_decide_unpack _).
    vm_compute. exact I. }
  split; [exact Hu|].
  apply (proj2 (proj2 (proj2 (reassign_always_refused 10 2 1 Sample.db Hu)))
           (Sample.ticket open (Some 1) None)).
  split; reflexivity.
Defined.




(** C10: a reassignment writes either nothing or the [assigned_to] column of
    the one ticket: the other columns of that ticket, [updated_at] among
    them, the other tickets and the other tables stay as they were; a
    reassignment that succeeds has written exactly that. *)
Theorem reassign_writes_only_assignee ticket_id target pid d :
  let res := update_ticket_assignee ticket_id target pid d in
  let written :=
    ∃ t t', ticket_in_project d ticket_id pid t
            ∧ res.1 = stored d ticket_id t'
            ∧ assigned_to t' = Some target
            ∧ same_but_assignee t t' in
  (res.1 = d ∨ written) ∧ (succeeds res.2 → written).
Proof.
  simpl. rewrite update_assignee_run.
  destruct (query_ticket ticket_id pid d) as [t|] eqn:Hq; [|split; [by left|by intros []]].
  destruct (query_project_user_with_role _ _ _ d); [|split; [by left|by intros []]].
  destruct (query_project_user target pid d); [|split; [by left|by intros []]].
  case_bool_decide; [|split; [by left|by intros []]].
  destruct (users d !! target) as [u|]; [|split; [by left|by intros []]].
  destruct (is_available u); [|split; [by left|by intros []]].
  apply query_ticket_Some in Hq.
  assert (∃ t0 t', ticket_in_project d ticket_id pid t0
            ∧ stored d ticket_id (set_assigned_to (Some target) t)
              = stored d ticket_id t'
            ∧ assigned_to t' = Some target ∧ same_but_assignee t0 t') as Hw.
  { exists t, (set_assigned_to (Some target) t). repeat split; apply Hq. }
  simpl. split; [right; exact Hw | intros _; exact Hw].
Qed.

Lemma reassign_writes_only_assignee_witness :
  ∃ t t', ticket_in_project Sample.db_two_rows 10 1 t
          ∧ (update_ticket_assignee 10 3 1 Sample.db_two_rows).1
            = stored Sample.db_two_rows 10 t'
          ∧ assigned_to t' = Some 3
          ∧ updated_at t' = updated_at t.
Proof.
  destruct (proj2 (reassign_writes_only_assignee 10 3 1 Sample.db_two_rows))
    as (t & t' & Hin & Hst & Has & Hsame).
  - vm_compute. exact I.
  - exists t, t'. repeat split; try apply Hin; try assumption. apply Hsame.
Defined.

(** ** Team membership *)

Lemma ensure_team_admin_test d caller tid :
  existsb (λ ut, bool_decide (ut_team_id ut = tid)
                 && bool_decide (ut_role ut = TeamRole_admin))
          (user_teams_of caller d) = true
  ↔ team_admin d caller tid.
Proof.
  rewrite existsb_exists. unfold team_admin, team_row, user_teams_of. split.
  - intros (ut & Hin & Htest). apply list_elem_of_In in Hin.
    apply list_elem_of_filter in Hin as [Hu Hin].
    apply andb_true_iff in Htest as [Ht Hr].
    apply bool_decide_eq_true in Ht, Hr. by exists ut.
  - intros (ut & (Hin & Hu & Ht) & Hr). exists ut. split.
    + apply list_elem_of_In. by apply list_elem_of_filter.
    + apply andb_true_iff. by rewrite !bool_decide_eq_true.
Qed.

Lemma membership_exists_test d uid tid :
  head (filter (λ ut, ut_user_id ut = uid ∧ ut_team_id ut = tid) (user_teams d))
  = None ↔ ¬ team_member d uid tid.
Proof.
  rewrite head_filter_None. unfold team_member, team_row. split.
  - intros Hall (ut & Hin & Hu & Ht). by apply (Hall ut).
  - intros Hn ut Hin [Hu Ht]. apply Hn. by exists ut.
Qed.

(** C9: adding a member is answered with 403 unless the caller has an admin
    row in the team, and with 400 when the user already has a row in the
    team; in both cases the table of memberships is left as it was.
    Otherwise one row is appended for the user and the team, with the role
    of the request, or [member] when the request names none, and the
    instant of the call; that row is returned. *)
Theorem add_member now user_id tid role caller d :
  let res := add_user_to_team now user_id tid role caller d in
  let row := {| ut_user_id := user_id; ut_team_id := tid;
                ut_role := match role with Some r => r | None => TeamRole_member end;
                ut_joined_at := now |} in
  (¬ team_admin d caller tid → Forbidden res.2 ∧ res.1 = d)
  ∧ (team_admin d caller tid → team_member d user_id tid →
       BadRequest res.2 ∧ res.1 = d)
  ∧ (team_admin d caller tid → ¬ team_member d user_id tid →
       res.2 = inr row ∧ res.1 = with_user_teams (user_teams d ++ [row]) d).
Proof.
  simpl. unfold add_user_to_team, _ensure_team_admin. run.
  pose proof (ensure_team_admin_test d caller tid) as Hadm.
  pose proof (membership_exists_test d user_id tid) as Hmem.
  destruct (existsb _ _); simpl.
  - destruct (head _) as [ut|]; simpl.
    + split; [|split].
      * intros Hn. destruct Hn. by apply Hadm.
      * done.
      * intros _ Hn. by apply Hmem in Hn.
    + split; [|split].
      * intros Hn. destruct Hn. by apply Hadm.
      * intros _ Hm. by destruct (proj1 Hmem).
      * by destruct role.
  - split; [done|].
    split; intros Ha; apply Hadm in Ha; discriminate.
Qed.

Lemma add_member_witness :
  BadRequest (add_user_to_team 9 2 1 None 1 Sample.db).2
  ∧ (add_user_to_team 9 2 1 None 1 Sample.db).1 = Sample.db.
Proof.
  apply (proj1 (proj2 (add_member 9 2 1 None 1 Sample.db))).
  - exists {| ut_user_id := 1; ut_team_id := 1;
              ut_role := TeamRole_admin; ut_joined_at := 0 |}.
    split; [split; [apply list_elem_of_here | split; reflexivity] | reflexivity].
  - exists {| ut_user_id := 2; ut_team_id := 1;
              ut_role := TeamRole_member; ut_joined_at := 0 |}.
    split; [apply list_elem_of_further, list_elem_of_here | split; reflexivity].
Defined.

(** ** Creation *)

Section CreateFacts.
Variable ilike : string → string → bool.

Lemma resolve_team_run ticket_in uid override d :
  resolve_team ticket_in uid override d =
  (d, match or_int override (TicketCreate.team_id ticket_in) with
      | Some team => inr team
      | None =>
          match users d !! uid with
          | None => inl AttributeError
          | Some _ =>
              match teams_of uid d with
              | [] => inl (HTTPException 400 "Team ID must be provided")
              | first :: _ => inr first
              end
          end
      end).
Proof.
  unfold resolve_team. run.
  destruct (or_int _ _); [done|].
  destruct (users d !! uid); [|done].
  by destruct (teams_of uid d).
Qed.

Lemma resolve_assignee_reads name pid d :
  (_resolve_assignee ilike name pid d).1 = d.
Proof.
  unfold _resolve_assignee. destruct (negb _); [done|]. run.
  by destruct (head _).
Qed.

Lemma resolve_worker_team_run ticket_in project d :
  resolve_worker_team ticket_in project d =
  (d, match TicketCreate.worker_team_id ticket_in with
      | Some explicit =>
          if decide (project_worker_team_id project = Some explicit)
          then inr (Some explicit)
          else inl (HTTPException 400 "Worker team not assigned to this project")
      | None =>
          if decide (TicketCreate.type ticket_in = TicketType_worker)
          then
            if truthy_int (project_worker_team_id project)
            then inr (project_worker_team_id project)
            else inl (HTTPException 400 "No worker team assigned to project")
          else inr None
      end).
Proof.
  unfold resolve_worker_team.
  destruct (TicketCreate.worker_team_id ticket_in) as [explicit|].
  - rewrite bool_decide_not, (bool_decide_decide (_ = _)).
    by destruct (decide _).
  - rewrite (bool_decide_decide (_ = _)). destruct (decide _); [|done].
    by destruct (truthy_int _).
Qed.

Lemma create_ticket_run now ticket_in uid pid override d :
  create_ticket ilike now ticket_in uid pid override d =
  match (resolve_team ticket_in uid override d).2 with
  | inl e => (d, inl e)
  | inr team =>
      match teams d !! team with
      | None => (d, inl (HTTPException 404 "Team not found"))
      | Some _ =>
          match projects d !! pid with
          | None => (d, inl (HTTPException 404 "Project not found"))
          | Some project =>
              match query_project_user uid pid d with
              | None =>
                  (d, inl (HTTPException 403 "You are not a member of this project"))
              | Some _ =>
                  match (_resolve_assignee ilike
                           (TicketCreate.assigned_to_name ticket_in) pid d).2 with
                  | inl e => (d, inl e)
                  | inr assignee =>
                      match (resolve_worker_team ticket_in project d).2 with
                      | inl e => (d, inl e)
                      | inr wteam =>
                          let id := autoincrement (tickets d) in
                          let t := new_row now ticket_in uid pid team assignee wteam in
                          (stored d id t, model_validate d id t)
                      end
                  end
              end
          end
      end
  end.
Proof.
  unfold create_ticket. unfold bind at 1. rewrite resolve_team_run. simpl.
  destruct (match or_int _ _ with Some _ => _ | None => _ end) as [e|team];
    [done|].
  run. destruct (teams d !! team); [|done].
  destruct (projects d !! pid) as [project|]; [|done].
  destruct (query_project_user uid pid d); [|done].
  pose proof (resolve_assignee_reads
                (TicketCreate.assigned_to_name ticket_in) pid d) as Hreads.
  destruct (_resolve_assignee _ _ _ d) as [d1 [e|assignee]];
    simpl in Hreads; subst d1; simpl; [done|].
  rewrite resolve_worker_team_run. simpl.
  destruct (match TicketCreate.worker_team_id ticket_in with
            | Some _ => _ | None => _ end) as [e|wteam]; [done|].
  apply load_stored.
Qed.

End CreateFacts.

Lemma create_ticket_passes ilike now ticket_in uid pid override d team project assignee :
  (resolve_team ticket_in uid override d).2 = inr team →
  passes_checks ilike ticket_in uid pid team d project assignee →
  create_ticket ilike now ticket_in uid pid override d =
  match (resolve_worker_team ticket_in project d).2 with
  | inl e => (d, inl e)
  | inr wteam =>
      let id := autoincrement (tickets d) in
      let t := new_row now ticket_in uid pid team assignee wteam in
      (stored d id t, model_validate d id t)
  end.
Proof.
  intros Hteam ([? Ht] & Hp & [? Hl] & Ha).
  by rewrite create_ticket_run, Hteam, Ht, Hp, Hl, Ha.
Qed.

(** C6: once the team, the project, the author's membership and the
    assignee are settled, an explicit worker team that is not the one of
    the project is answered with 400 and one that is the project's is
    written to the new ticket; without an explicit worker team, a ticket of
    type worker gets the worker team of the project when it has one (a
    non-zero id), and the call is answered with 400 when it has none.  The
    ticket returned is the new row read back. *)
Theorem worker_team_of_new_ticket
    ilike now ticket_in uid pid override d team project assignee :
  (resolve_team ticket_in uid override d).2 = inr team →
  passes_checks ilike ticket_in uid pid team d project assignee →
  let res := create_ticket ilike now ticket_in uid pid override d in
  let new_id := autoincrement (tickets d) in
  let created_with w :=
    ∃ t, tickets res.1 !! new_id = Some t
         ∧ worker_team_id t = Some w
         ∧ res.2 = model_validate d new_id t in
  (∀ w, TicketCreate.worker_team_id ticket_in = Some w →
        (project_worker_team_id project ≠ Some w → BadRequest res.2 ∧ res.1 = d)
        ∧ (project_worker_team_id project = Some w → created_with w))
  ∧ (TicketCreate.worker_team_id ticket_in = None →
     TicketCreate.type ticket_in = TicketType_worker →
        (∀ w, project_worker_team_id project = Some w → w ≠ 0 → created_with w)
        ∧ (project_worker_team_id project = None → BadRequest res.2 ∧ res.1 = d)).
Proof.
  intros Hteam Hadm. simpl.
  rewrite (create_ticket_passes _ _ _ _ _ _ _ _ _ _ Hteam Hadm).
  rewrite resolve_worker_team_run. simpl. split.
  - intros w ->. split; intros Hw.
    + by rewrite decide_False.
    + rewrite decide_True by done. simpl. rewrite lookup_insert_eq.
      by eexists.
  - intros -> Hty. rewrite decide_True by done. split.
    + intros w -> Hw. simpl. rewrite (proj2 (Z.eqb_neq w 0) Hw). simpl.
      rewrite lookup_insert_eq. by eexists.
    + by intros ->.
Qed.

Lemma worker_team_of_new_ticket_witness :
  ∃ t, tickets (create_ticket ilike_infix 50
                  (Sample.request TicketType_worker None None) 1 1 None Sample.db).1
         !! 12 = Some t
       ∧ worker_team_id t = Some 7.
Proof.
  destruct (proj1 (proj2 (worker_team_of_new_ticket ilike_infix 50
                     (Sample.request TicketType_worker None None) 1 1 None
                     Sample.db 1
                     {| project_name := "office"; project_worker_team_id := Some 7 |}
                     (Some 1) eq_refl
                     (conj (ex_intro _ _ eq_refl)
                        (conj eq_refl (conj (ex_intro _ _ eq_refl) eq_refl))))
                   eq_refl eq_refl) 7 eq_refl)
    as (t & Ht & Hw & _).
  - discriminate.
  - exists t. split; assumption.
Defined.

(** Python truthiness: a worker team id of 0 on the project is read as no
    worker team. *)
Lemma worker_team_zero_reads_as_none ticket_in project d :
  TicketCreate.worker_team_id ticket_in = None →
  TicketCreate.type ticket_in = TicketType_worker →
  project_worker_team_id project = Some 0 →
  BadRequest (resolve_worker_team ticket_in project d).2.
Proof.
  intros Hw Hty Hp. rewrite resolve_worker_team_run, Hw, Hp.
  by rewrite decide_True.
Qed.

(** C7, as stated, fails: Carol exists and belongs to no team, the request
    names no team and there is no override; the call is answered with 400
    ("Team ID must be provided"), not with 404. *)
Lemma no_team_is_not_not_found :
  ¬ (∀ ilike now ticket_in uid pid d,
       TicketCreate.team_id ticket_in = None →
       is_Some (users d !! uid) → teams_of uid d = [] →
       NotFound (create_ticket ilike now ticket_in uid pid None d).2).
Proof.
  intros Hclaim.
  specialize (Hclaim ilike_infix 50 (Sample.request TicketType_worker None None)
                3 1 Sample.db eq_refl (ex_intro _ _ eq_refl) eq_refl).
  vm_compute in Hclaim. discriminate Hclaim.
Qed.

(** C7, amended: the team of a new ticket is the override when one is given
    (a non-zero id), else the team named by the request, else the first team
    of the author; a ticket that passes the later checks is created in that
    team, and the call is answered with 404 when that team does not exist.
    With no override, no team in the request and an author without teams,
    the call is answered with 400 and nothing is written. *)
Theorem team_of_new_ticket ilike now ticket_in uid pid override d :
  let res := create_ticket ilike now ticket_in uid pid override d in
  let effective team :=
    (resolve_team ticket_in uid override d).2 = inr team
    ∧ (teams d !! team = None → NotFound res.2 ∧ res.1 = d)
    ∧ (∀ project assignee wteam,
         passes_checks ilike ticket_in uid pid team d project assignee →
         (resolve_worker_team ticket_in project d).2 = inr wteam →
         ∃ t, tickets res.1 !! autoincrement (tickets d) = Some t
              ∧ team_id t = team
              ∧ res.2 = model_validate d (autoincrement (tickets d)) t) in
  (∀ o, override = Some o → o ≠ 0 → effective o)
  ∧ (override = None →
     ∀ s, TicketCreate.team_id ticket_in = Some s → effective s)
  ∧ (override = None → TicketCreate.team_id ticket_in = None →
     is_Some (users d !! uid) →
       (∀ first rest, teams_of uid d = first :: rest → effective first)
       ∧ (teams_of uid d = [] → BadRequest res.2 ∧ res.1 = d)).
Proof.
  simpl.
  assert (∀ team, (resolve_team ticket_in uid override d).2 = inr team →
            (teams d !! team = None →
             NotFound (create_ticket ilike now ticket_in uid pid override d).2
             ∧ (create_ticket ilike now ticket_in uid pid override d).1 = d)
            ∧ (∀ project assignee wteam,
                 passes_checks ilike ticket_in uid pid team d project assignee →
                 (resolve_worker_team ticket_in project d).2 = inr wteam →
                 ∃ t, tickets (create_ticket ilike now ticket_in uid pid override d).1
                        !! autoincrement (tickets d) = Some t
                      ∧ team_id t = team
                      ∧ (create_ticket ilike now ticket_in uid pid override d).2
                        = model_validate d (autoincrement (tickets d)) t)) as Heff.
  { intros team Hteam. split.
    - intros Hnone. by rewrite create_ticket_run, Hteam, Hnone.
    - intros project assignee wteam Hadm Hw.
      rewrite (create_ticket_passes _ _ _ _ _ _ _ _ _ _ Hteam Hadm), Hw.
      simpl. rewrite lookup_insert_eq. by eexists. }
  split; [|split].
  - intros o -> Ho.
    assert ((resolve_team ticket_in uid (Some o) d).2 = inr o) as Hteam.
    { rewrite resolve_team_run. unfold or_int. simpl.
      by rewrite (proj2 (Z.eqb_neq o 0) Ho). }
    split; [done|]. by apply Heff.
  - intros -> s Hs.
    assert ((resolve_team ticket_in uid None d).2 = inr s) as Hteam.
    { rewrite resolve_team_run. unfold or_int. simpl. by rewrite Hs. }
    split; [done|]. by apply Heff.
  - intros -> Hnone [u Hu]. split.
    + intros first rest Hteams.
      assert ((resolve_team ticket_in uid None d).2 = inr first) as Hteam.
      { rewrite resolve_team_run. unfold or_int. simpl.
        by rewrite Hnone, Hu, Hteams. }
      split; [done|]. by apply Heff.
    + intros Hteams. rewrite create_ticket_run, resolve_team_run.
      unfold or_int. simpl. by rewrite Hnone, Hu, Hteams.
Qed.

Lemma team_of_new_ticket_witness :
  BadRequest (create_ticket ilike_infix 50
                (Sample.request TicketType_worker None None) 3 1 None Sample.db).2
  ∧ (create_ticket ilike_infix 50
       (Sample.request TicketType_worker None None) 3 1 None Sample.db).1
    = Sample.db.
Proof.
  apply (proj2 (proj2 (team_of_new_ticket ilike_infix 50
                  (Sample.request TicketType_worker None None) 3 1 None Sample.db))
           eq_refl eq_refl (ex_intro _ _ eq_refl)).
  reflexivity.
Defined.

(** ** The [closed_at] invariant *)

Lemma invariant_stored d ticket_id t :
  ticket_invariant d → closed_at_iff_closed t →
  ticket_invariant (stored d ticket_id t).
Proof. intros Hd Ht. by apply map_Forall_insert_2. Qed.

Lemma invariant_lookup d ticket_id pid t :
  ticket_invariant d → query_ticket ticket_id pid d = Some t →
  closed_at_iff_closed t.
Proof.
  intros Hd [Ht _]%query_ticket_Some. exact (map_Forall_lookup_1 _ _ _ _ Hd Ht).
Qed.

Lemma delete_ticket_writes ticket_id pid actor d :
  (delete_ticket ticket_id pid actor d).1 = d
  ∨ (delete_ticket ticket_id pid actor d).1
    = with_tickets (delete ticket_id (tickets d)) d.
Proof.
  unfold delete_ticket. run.
  destruct (query_ticket ticket_id pid d); [|by left].
  destruct (negb _); [by left|by right].
Qed.

Lemma add_user_to_team_tickets now user_id tid role caller d :
  tickets (add_user_to_team now user_id tid role caller d).1 = tickets d.
Proof.
  unfold add_user_to_team, _ensure_team_admin. run.
  destruct (negb _); [done|]. simpl. by destruct (head _).
Qed.

Lemma remove_user_from_team_tickets user_id tid caller d :
  tickets (remove_user_from_team user_id tid caller d).1 = tickets d.
Proof.
  unfold remove_user_from_team, _ensure_team_admin. run.
  destruct (negb _); [done|]. simpl. by case_bool_decide.
Qed.

Lemma new_ticket_open ilike now ticket_in uid pid override d out :
  (create_ticket ilike now ticket_in uid pid override d).2 = inr out →
  ∃ t, tickets (create_ticket ilike now ticket_in uid pid override d).1
         !! out_id out = Some t
       ∧ status t = open ∧ closed_at t = None.
Proof.
  rewrite create_ticket_run.
  destruct (resolve_team _ _ _ d).2 as [?|team]; [done|].
  destruct (teams d !! team); [|done].
  destruct (projects d !! pid) as [project|]; [|done].
  destruct (query_project_user uid pid d); [|done].
  destruct (_resolve_assignee _ _ _ d).2 as [?|assignee]; [done|].
  destruct (resolve_worker_team _ _ d).2 as [?|wteam]; [done|].
  simpl. unfold model_validate.
  destruct (user_brief d _); [|done].
  destruct (priority _); [|done].
  intros [= <-]. simpl. rewrite lookup_insert_eq. by eexists.
Qed.

(** C4: on a store where [closed_at] is set exactly on the closed tickets,
    every handler leaves such a store.  A ticket returned by
    [create_ticket] is stored open with no [closed_at]; a status update
    that is let through stores [closed_at] as the instant of the call when
    the requested status is [closed], and leaves [closed_at] as it was
    otherwise. *)
Theorem closed_at_tracks_status d :
  ticket_invariant d →
  (∀ ilike now ticket_in uid pid override,
     let res := create_ticket ilike now ticket_in uid pid override d in
     ticket_invariant res.1
     ∧ ∀ out, res.2 = inr out →
         ∃ t, tickets res.1 !! out_id out = Some t
              ∧ status t = open ∧ closed_at t = None)
  ∧ (∀ now_closed now_updated ticket_id pid nxt actor,
       let res :=
         update_ticket_status_by_assignee
           now_closed now_updated ticket_id pid nxt actor d in
       ticket_invariant res.1
       ∧ ∀ t, ticket_in_project d ticket_id pid t →
           assigned_to t = Some actor → one_step (status t) nxt →
           ∃ t', tickets res.1 !! ticket_id = Some t'
                 ∧ status t' = nxt
                 ∧ closed_at t' =
                     if decide (nxt = closed) then Some now_closed
                     else closed_at t)
  ∧ (∀ now ticket_id pid upd actor,
       ticket_invariant (leave_feedback_by_creator now ticket_id pid upd actor d).1)
  ∧ (∀ ticket_id target pid,
       ticket_invariant (update_ticket_assignee ticket_id target pid d).1)
  ∧ (∀ ticket_id pid actor,
       ticket_invariant (delete_ticket ticket_id pid actor d).1)
  ∧ (∀ now user_id tid role caller,
       ticket_invariant (add_user_to_team now user_id tid role caller d).1)
  ∧ (∀ user_id tid caller,
       ticket_invariant (remove_user_from_team user_id tid caller d).1)
  ∧ (∀ available caller,
       ticket_invariant (update_my_availability available caller d).1).
Proof.
  intros Hd. repeat apply conj.
  - intros ilike now ticket_in uid pid override. simpl.
    split; [|apply new_ticket_open].
    rewrite create_ticket_run.
    destruct (resolve_team _ _ _ d).2 as [?|team]; [done|].
    destruct (teams d !! team); [|done].
    destruct (projects d !! pid) as [project|]; [|done].
    destruct (query_project_user uid pid d); [|done].
    destruct (_resolve_assignee _ _ _ d).2 as [?|assignee]; [done|].
    destruct (resolve_worker_team _ _ d).2 as [?|wteam]; [done|].
    apply invariant_stored; [done|].
    split; [by intros [? [=]]|done].
  - intros now_closed now_updated ticket_id pid nxt actor. simpl.
    rewrite update_status_run.
    destruct (query_ticket ticket_id pid d) as [t|] eqn:Hq.
    + pose proof (invariant_lookup _ _ _ _ Hd Hq) as Hinv.
      apply query_ticket_Some in Hq.
      assert (∀ t0, ticket_in_project d ticket_id pid t0 → t0 = t) as Hsame.
      { intros t0 [Ht0 _]. destruct Hq as [Ht _]. congruence. }
      case_bool_decide as Ha;
        [|split; [done|]; intros t0 Ht0; by rewrite (Hsame t0 Ht0)].
      case_bool_decide as Hstep;
        [|split; [done|]; intros t0 Ht0; by rewrite (Hsame t0 Ht0)].
      rewrite load_stored. simpl. split.
      * apply invariant_stored; [done|].
        unfold closed_at_iff_closed in *.
        case_bool_decide as Hc; simpl.
        -- split; [done|by eexists].
        -- destruct Hstep as [[Ho ->]|[_ ->]]; [|done].
           rewrite Ho in Hinv. split; [|done].
           intros Hsome. by apply Hinv in Hsome.
      * intros t0 Ht0 _ _. rewrite (Hsame t0 Ht0), lookup_insert_eq.
        eexists. split; [done|].
        case_bool_decide; by case_decide.
    + split; [done|]. intros t0 Ht0%query_ticket_Some. congruence.
  - intros now ticket_id pid upd actor. rewrite leave_feedback_run.
    destruct (query_ticket ticket_id pid d) as [t|] eqn:Hq; [|done].
    pose proof (invariant_lookup _ _ _ _ Hd Hq) as Hinv.
    repeat case_bool_decide; try done.
    simpl. by apply invariant_stored.
  - intros ticket_id target pid. rewrite update_assignee_run.
    destruct (query_ticket ticket_id pid d) as [t|] eqn:Hq; [|done].
    pose proof (invariant_lookup _ _ _ _ Hd Hq) as Hinv.
    destruct (query_project_user_with_role _ _ _ d); [|done].
    destruct (query_project_user target pid d); [|done].
    case_bool_decide; [|done].
    destruct (users d !! target) as [u|]; [|done].
    destruct (is_available u); [|done].
    simpl. by apply invariant_stored.
  - intros ticket_id pid actor.
    destruct (delete_ticket_writes ticket_id pid actor d) as [-> | ->]; [done|].
    by apply map_Forall_delete.
  - intros now user_id tid role caller. unfold ticket_invariant.
    by rewrite add_user_to_team_tickets.
  - intros user_id tid caller. unfold ticket_invariant.
    by rewrite remove_user_from_team_tickets.
  - done.
Qed.

Lemma closed_at_tracks_status_witness :
  ticket_invariant Sample.db
  ∧ ticket_invariant
      (update_ticket_status_by_assignee 100 101 10 1 in_progress 1 Sample.db).1.
Proof.
  assert (ticket_invariant Sample.db) as Hd.
  { apply (bool_decide_unpack _). vm_compute. exact I. }
  split; [exact Hd|].
  apply (proj1 (proj2 (closed_at_tracks_status Sample.db Hd))
           100 101 10 1 in_progress 1).
Defined.

(** ** Scenarios on the sample store *)

(** The assignee moves ticket 10 to [in_progress] and then to [closed]; the
    second step stamps [closed_at]. *)
Example open_in_progress_closed :
  let d1 := (update_ticket_status_by_assignee 100 101 10 1 in_progress 1 Sample.db).1 in
  let d2 := (update_ticket_status_by_assignee 200 201 10 1 closed 1 d1).1 in
  (λ t, (status t, closed_at t, updated_at t)) <$> tickets d1 !! 10
  = Some (in_progress, None, Some 101)
  ∧ (λ t, (status t, closed_at t, updated_at t)) <$> tickets d2 !! 10
    = Some (closed, Some 200, Some 201).
Proof. split; reflexivity. Qed.

(** Nothing leaves [closed]. *)
Example closed_is_terminal nxt :
  BadRequest (update_ticket_status_by_assignee 100 101 11 1 nxt 1 Sample.db).2.
Proof. destruct nxt; reflexivity. Qed.

(** On the sample store every reassignment of ticket 10 is refused with
    403, whoever the target is among the three users. *)
Example reassign_refused_for_all_users :
  Forall (λ target, Forbidden (update_ticket_assignee 10 target 1 Sample.db).2)
         [1; 2; 3].
Proof. repeat constructor. Qed.

(** Alice adds Carol to team 1 with the default role. *)
Example add_carol :
  (add_user_to_team 9 3 1 None 1 Sample.db).2
  = inr {| ut_user_id := 3; ut_team_id := 1;
           ut_role := TeamRole_member; ut_joined_at := 9 |}
  ∧ length (user_teams (add_user_to_team 9 3 1 None 1 Sample.db).1) = 3%nat.
Proof. split; reflexivity. Qed.

(** An explicit worker team other than the project's is refused. *)
Example foreign_worker_team_refused :
  (create_ticket ilike_infix 50
     (Sample.request TicketType_other None (Some 1)) 1 1 None Sample.db).2
  = inl (HTTPException 400 "Worker team not assigned to this project").
Proof. reflexivity. Qed.

(** * Properties of the remaining handlers *)

(** ** Reading tickets *)

Lemma model_validate_fields d k t out :
  model_validate d k t = inr out →
  out_id out = k ∧ out_status out = status t
  ∧ out_confirmed out = confirmed t ∧ out_feedback out = feedback t
  ∧ out_title out = title t ∧ out_description out = description t
  ∧ user_brief d (created_by t) = Some (out_creator out)
  ∧ out_assignee out = assigned_to t ≫= user_brief d.
Proof.
  unfold model_validate.
  destruct (user_brief d (created_by t)); [|done].
  destruct (priority t); [|done].
  by intros [= <-].
Qed.

Lemma model_validate_stored d k t k' t' :
  model_validate (stored d k t) k' t' = model_validate d k' t'.
Proof. done. Qed.

Lemma query_ticket_stored d k pid t :
  project_id t = pid → query_ticket k pid (stored d k t) = Some t.
Proof.
  intros Hp. unfold query_ticket, stored. simpl.
  by rewrite lookup_insert_eq, bool_decide_eq_true_2.
Qed.

Lemma get_ticket_by_id_run ticket_id pid d :
  get_ticket_by_id ticket_id pid d =
  (d, match query_ticket ticket_id pid d with
      | None => inl (HTTPException 404
                       ("Ticket " +:+ pretty ticket_id +:+ " not found"))
      | Some t => model_validate d ticket_id t
      end).
Proof.
  unfold get_ticket_by_id. run. by destruct (query_ticket ticket_id pid d).
Qed.

(** X1: reading a ticket never writes.  It is answered with 404 exactly
    when no ticket with the id is in the project, a ticket with the id in
    another project included; a ticket that is returned carries the id and
    the stored status, feedback and confirmation. *)
Theorem get_ticket_scoped_to_project ticket_id pid d :
  let res := get_ticket_by_id ticket_id pid d in
  res.1 = d
  ∧ (NotFound res.2 ↔ ∀ t, ¬ ticket_in_project d ticket_id pid t)
  ∧ (∀ t other, tickets d !! ticket_id = Some t → project_id t = other →
       other ≠ pid → NotFound res.2)
  ∧ (∀ out, res.2 = inr out →
       ∃ t, ticket_in_project d ticket_id pid t
            ∧ out_id out = ticket_id ∧ out_status out = status t
            ∧ out_feedback out = feedback t ∧ out_confirmed out = confirmed t).
Proof.
  simpl. rewrite get_ticket_by_id_run. simpl.
  split; [done|].
  destruct (query_ticket ticket_id pid d) as [t|] eqn:Hq.
  - pose proof (proj1 (query_ticket_Some _ _ _ _) Hq) as Hin.
    split; [|split].
    + split.
      * unfold NotFound, fails_with, model_validate.
        destruct (user_brief _ _); [|done]. by destruct (priority _).
      * intros Hn. by destruct (Hn t).
    + intros t0 other Ht0 Hp Hne. destruct Hin as [Ht Hpt]. congruence.
    + intros out Hout. exists t. split; [done|].
      by destruct (model_validate_fields _ _ _ _ Hout) as (?&?&?&?&_).
  - pose proof (proj1 (query_ticket_None _ _ _) Hq) as Hn.
    split; [|split]; [done|done|done].
Qed.

Lemma get_ticket_scoped_to_project_witness :
  NotFound (get_ticket_by_id 10 2 Sample.db).2.
Proof.
  apply (proj1 (proj2 (proj2 (get_ticket_scoped_to_project 10 2 Sample.db)))
           (Sample.ticket open (Some 1) None) 1).
  - reflexivity.
  - reflexivity.
  - discriminate.
Defined.

(** X2: what a writing handler returns is what a read gives afterwards:
    when [create_ticket], a status update, feedback or a reassignment
    returns a ticket, [get_ticket_by_id] on the store it leaves returns the
    same ticket. *)
Theorem read_after_write d pid :
  (∀ ilike now ticket_in uid override out,
     let res := create_ticket ilike now ticket_in uid pid override d in
     res.2 = inr out →
     (get_ticket_by_id (out_id out) pid res.1).2 = inr out)
  ∧ (∀ now_closed now_updated ticket_id nxt actor out,
       let res := update_ticket_status_by_assignee
                    now_closed now_updated ticket_id pid nxt actor d in
       res.2 = inr out → (get_ticket_by_id ticket_id pid res.1).2 = inr out)
  ∧ (∀ now ticket_id upd actor out,
       let res := leave_feedback_by_creator now ticket_id pid upd actor d in
       res.2 = inr out → (get_ticket_by_id ticket_id pid res.1).2 = inr out)
  ∧ (∀ ticket_id target out,
       let res := update_ticket_assignee ticket_id target pid d in
       res.2 = inr out → (get_ticket_by_id ticket_id pid res.1).2 = inr out).
Proof.
  assert (∀ k t out, project_id t = pid →
            model_validate d k t = inr out →
            (get_ticket_by_id k pid (stored d k t)).2 = inr out) as Hread.
  { intros k t out Hp Hout. rewrite get_ticket_by_id_run. simpl.
    by rewrite query_ticket_stored, model_validate_stored. }
  repeat apply conj.
  - intros ilike now ticket_in uid override out. simpl.
    rewrite create_ticket_run.
    destruct (resolve_team _ _ _ d).2 as [?|team]; [done|].
    destruct (teams d !! team); [|done].
    destruct (projects d !! pid) as [project|]; [|done].
    destruct (query_project_user uid pid d); [|done].
    destruct (_resolve_assignee _ _ _ d).2 as [?|assignee]; [done|].
    destruct (resolve_worker_team _ _ d).2 as [?|wteam]; [done|].
    simpl. intros Hout.
    destruct (model_validate_fields _ _ _ _ Hout) as [-> _].
    by apply Hread.
  - intros now_closed now_updated ticket_id nxt actor out. simpl.
    rewrite update_status_run.
    destruct (query_ticket ticket_id pid d) as [t|] eqn:Hq; [|done].
    apply query_ticket_Some in Hq as [_ Hp].
    repeat case_bool_decide; try done; rewrite load_stored; simpl;
      intros Hout; by apply Hread.
  - intros now ticket_id upd actor out. simpl. rewrite leave_feedback_run.
    destruct (query_ticket ticket_id pid d) as [t|] eqn:Hq; [|done].
    apply query_ticket_Some in Hq as [_ Hp].
    repeat case_bool_decide; try done. simpl. intros Hout. by apply Hread.
  - intros ticket_id target out. simpl. rewrite update_assignee_run.
    destruct (query_ticket ticket_id pid d) as [t|] eqn:Hq; [|done].
    apply query_ticket_Some in Hq as [_ Hp].
    destruct (query_project_user_with_role _ _ _ d); [|done].
    destruct (query_project_user target pid d); [|done].
    case_bool_decide; [|done].
    destruct (users d !! target) as [u|]; [|done].
    destruct (is_available u); [|done].
    simpl. intros Hout. by apply Hread.
Qed.

Lemma read_after_write_witness :
  ∃ out, (create_ticket ilike_infix 50
            (Sample.request TicketType_worker None None) 1 1 None Sample.db).2
         = inr out
         ∧ (get_ticket_by_id 12 1
              (create_ticket ilike_infix 50
                 (Sample.request TicketType_worker None None) 1 1 None Sample.db).1).2
           = inr out.
Proof.
  destruct (create_ticket ilike_infix 50
              (Sample.request TicketType_worker None None) 1 1 None Sample.db).2
    as [e|out] eqn:Hres.
  - vm_compute in Hres. discriminate Hres.
  - exists out. split; [reflexivity|].
    assert (out_id out = 12) as Hid.
    { vm_compute in Hres. injection Hres as <-. reflexivity. }
    rewrite <- Hid.
    apply (proj1 (read_after_write Sample.db 1) ilike_infix 50
             (Sample.request TicketType_worker None None) 1 None out Hres).
Defined.

(** ** Listings *)

Section Listing.
Context (P : Ticket → Prop) `{!∀ t, Decision (P t)}.

Lemma elem_of_select_tickets d k t :
  (k, t) ∈ select_tickets P d ↔ tickets d !! k = Some t ∧ P t.
Proof.
  unfold select_tickets.
  rewrite elem_of_map_to_list, map_lookup_filter_Some. done.
Qed.

Lemma select_tickets_NoDup d : NoDup (select_tickets P d).*1.
Proof. apply NoDup_fst_map_to_list. Qed.

End Listing.

Lemma validate_all_rows d rows outs :
  validate_all d rows = inr outs →
  Forall2 (λ kt out, model_validate d kt.1 kt.2 = inr out) rows outs.
Proof.
  revert outs. induction rows as [|[k t] rows IH]; intros outs; simpl.
  - intros [= <-]. constructor.
  - destruct (model_validate d k t) as [?|out] eqn:Hv; [done|].
    destruct (validate_all d rows) as [?|outs']; [done|].
    intros [= <-]. constructor; [done|]. by apply IH.
Qed.

Lemma validate_all_ids d rows outs :
  validate_all d rows = inr outs → out_id <$> outs = rows.*1.
Proof.
  intros Hall%validate_all_rows.
  induction Hall as [|[k t] out rows outs Hv _ IH]; [done|].
  rewrite !fmap_cons, IH. simpl in Hv.
  by destruct (model_validate_fields _ _ _ _ Hv) as [-> _].
Qed.

Lemma validate_all_succeeds d rows :
  succeeds (validate_all d rows)
  ↔ ∀ k t, (k, t) ∈ rows → succeeds (model_validate d k t).
Proof.
  induction rows as [|[k t] rows IH]; simpl.
  - split; [|done]. intros _ k t Hin. by apply elem_of_nil in Hin.
  - destruct (model_validate d k t) as [e|out] eqn:Hv.
    + split; [done|]. intros Hall.
      specialize (Hall k t (list_elem_of_here _ _)). by rewrite Hv in Hall.
    + destruct (validate_all d rows) as [e|outs]; simpl in *.
      * split; [done|]. intros Hall. apply IH.
        intros k' t' Hin. apply Hall. by right.
      * split; [|done]. intros _ k' t' [[= -> ->]|Hin]%elem_of_cons.
        -- by rewrite Hv.
        -- by apply IH.
Qed.

Lemma validate_all_lists (P : Ticket → Prop) `{!∀ t, Decision (P t)} d outs :
  validate_all d (select_tickets P d) = inr outs → lists P d outs.
Proof.
  intros Hv. pose proof (validate_all_ids _ _ _ Hv) as Hids.
  split; [|split].
  - rewrite Hids. apply select_tickets_NoDup.
  - intros k. rewrite Hids, list_elem_of_fmap. split.
    + intros ([k' t] & -> & Hin). exists t. simpl.
      by apply elem_of_select_tickets in Hin.
    + intros (t & Ht & HP). exists (k, t). split; [done|].
      by apply elem_of_select_tickets.
  - intros out Hout. apply validate_all_rows in Hv.
    destruct (proj1 (list_elem_of_lookup _ _) Hout) as [i Hi].
    destruct (Forall2_lookup_r _ _ _ _ _ Hv Hi) as ([k t] & Hrow & Hval).
    simpl in Hval. destruct (model_validate_fields _ _ _ _ Hval) as [Hid _].
    apply list_elem_of_lookup_2, elem_of_select_tickets in Hrow as [Ht HP].
    exists t. by rewrite Hid.
Qed.

(** X3: the two plain listings never write.  When [get_all_tickets]
    returns, it returns each ticket of the project once and nothing else;
    when [get_user_tickets] returns, each ticket of the project created by
    the user once and nothing else.  Either one returns exactly when every
    ticket it selects has a creator row and a priority: one ticket that
    does not validate fails the whole listing. *)
Theorem listings_scoped d pid :
  ((get_all_tickets pid d).1 = d
   ∧ (∀ outs, (get_all_tickets pid d).2 = inr outs → lists (of_project pid) d outs)
   ∧ (succeeds (get_all_tickets pid d).2
      ↔ ∀ k t, tickets d !! k = Some t → project_id t = pid →
               succeeds (model_validate d k t)))
  ∧ ∀ uid,
      (get_user_tickets uid pid d).1 = d
      ∧ (∀ outs, (get_user_tickets uid pid d).2 = inr outs →
                 lists (created_in_project uid pid) d outs)
      ∧ (succeeds (get_user_tickets uid pid d).2
         ↔ ∀ k t, tickets d !! k = Some t → created_by t = uid →
                  project_id t = pid → succeeds (model_validate d k t)).
Proof.
  split; [|intros uid]; (split; [done|]); split.
  - intros outs. apply validate_all_lists.
  - unfold get_all_tickets. simpl. rewrite validate_all_succeeds. split.
    + intros Hall k t Ht Hp. apply Hall. by apply elem_of_select_tickets.
    + intros Hall k t [Ht Hp]%elem_of_select_tickets. by apply Hall.
  - intros outs. apply validate_all_lists.
  - unfold get_user_tickets. simpl. rewrite validate_all_succeeds. split.
    + intros Hall k t Ht Hc Hp. apply Hall. by apply elem_of_select_tickets.
    + intros Hall k t [Ht [Hc Hp]]%elem_of_select_tickets. by apply Hall.
Qed.

Lemma project_member_test d uid pid :
  existsb (λ pu, bool_decide (pu_project_id pu = pid)) (project_users_of uid d)
  = true ↔ project_member d uid pid.
Proof.
  rewrite existsb_exists. unfold project_member, project_users_of. split.
  - intros (pu & Hin & Htest). apply list_elem_of_In in Hin.
    apply list_elem_of_filter in Hin as [Hu Hin].
    apply bool_decide_eq_true in Htest. by exists pu.
  - intros (pu & Hin & Hu & Hp). exists pu. split.
    + apply list_elem_of_In. by apply list_elem_of_filter.
    + by apply bool_decide_eq_true.
Qed.

Lemma assigned_run uid pid d :
  get_tickets_assigned_to_user uid pid d =
  (d, if existsb (λ pu, bool_decide (pu_project_id pu = pid))
                 (project_users_of uid d)
      then validate_all d (select_tickets (assigned_and_active uid pid) d)
      else inl (HTTPException 403 "Not a project member")).
Proof.
  unfold get_tickets_assigned_to_user. run. by destruct (existsb _ _).
Qed.

Lemma assigned_listing uid pid d outs :
  (get_tickets_assigned_to_user uid pid d).2 = inr outs →
  lists (assigned_and_active uid pid) d outs.
Proof.
  rewrite assigned_run. simpl. destruct (existsb _ _); [|done].
  apply validate_all_lists.
Qed.

(** X4: the list of a user's assigned tickets never writes and is answered
    with 403 exactly when the user has no membership row in the project.
    When it returns, it returns once each ticket of the project that is
    assigned to the user and is open or in progress, and nothing else: a
    closed ticket is never listed. *)
Theorem assigned_list_active_only uid pid d :
  let res := get_tickets_assigned_to_user uid pid d in
  res.1 = d
  ∧ (Forbidden res.2 ↔ ¬ project_member d uid pid)
  ∧ (∀ outs, res.2 = inr outs →
       lists (assigned_and_active uid pid) d outs
       ∧ ∀ out, out ∈ outs → out_status out ≠ closed).
Proof.
  simpl. rewrite assigned_run. simpl. split; [done|].
  pose proof (project_member_test d uid pid) as Hmem.
  destruct (existsb _ _).
  - split.
    + split.
      * intros Hf. exfalso. revert Hf. clear.
        generalize (select_tickets (assigned_and_active uid pid) d).
        intros rows. unfold Forbidden, fails_with.
        destruct (validate_all d rows) as [e|] eqn:Hv; [|done].
        revert e Hv. induction rows as [|[k t] rows IH]; simpl; [done|].
        intros e. unfold model_validate at 1.
        destruct (user_brief d (created_by t)); [|by intros [= <-]].
        destruct (priority t); [|by intros [= <-]].
        destruct (validate_all d rows) as [e'|]; [|done].
        intros [= <-]. by apply IH.
      * intros Hn. destruct Hn. by apply Hmem.
    + intros outs Hv. pose proof (validate_all_lists _ _ _ Hv) as Hl.
      split; [done|]. intros out Hout.
      destruct Hl as (_ & _ & Hrows).
      destruct (Hrows out Hout) as (t & _ & (_ & _ & Hst) & Hval).
      destruct (model_validate_fields _ _ _ _ Hval) as (_ & -> & _).
      intros Hc. rewrite Hc in Hst.
      apply elem_of_cons in Hst as [?|Hst]; [done|].
      apply elem_of_cons in Hst as [?|Hst]; [done|].
      by apply elem_of_nil in Hst.
  - split; [|done]. split; [|done].
    intros _ Hm. apply Hmem in Hm. discriminate.
Qed.

Lemma listings_scoped_witness :
  ∃ outs, (get_all_tickets 1 Sample.db).2 = inr outs
          ∧ lists (of_project 1) Sample.db outs.
Proof.
  destruct (get_all_tickets 1 Sample.db).2 as [e|outs] eqn:Hres.
  - vm_compute in Hres. discriminate Hres.
  - exists outs. split; [reflexivity|].
    exact (proj1 (proj2 (proj1 (listings_scoped Sample.db 1))) outs Hres).
Defined.

Lemma assigned_list_active_only_witness :
  Forbidden (get_tickets_assigned_to_user 3 1 Sample.db).2.
Proof.
  apply (proj2 (proj1 (proj2 (assigned_list_active_only 3 1 Sample.db)))).
  intros (pu & Hin & Hu & Hp).
  repeat (apply elem_of_cons in Hin as [->|Hin]; [discriminate Hu|]).
  by apply elem_of_nil in Hin.
Defined.

(** X5: a ticket that its assignee closes was on the assignee's list of
    assigned tickets before the call and is on nobody's list after it. *)
Theorem closing_takes_off_the_list now_closed now_updated ticket_id pid actor d :
  let res := update_ticket_status_by_assignee
               now_closed now_updated ticket_id pid closed actor d in
  succeeds res.2 →
  (∀ outs, (get_tickets_assigned_to_user actor pid d).2 = inr outs →
           ticket_id ∈ out_id <$> outs)
  ∧ (∀ uid outs, (get_tickets_assigned_to_user uid pid res.1).2 = inr outs →
                 ticket_id ∉ out_id <$> outs).
Proof.
  simpl. rewrite update_status_run.
  destruct (query_ticket ticket_id pid d) as [t|] eqn:Hq; [|done].
  apply query_ticket_Some in Hq as [Ht Hp].
  case_bool_decide as Ha; [|done].
  case_bool_decide as Hstep; [|done].
  rewrite load_stored. simpl. intros _.
  assert (status t = in_progress) as Hst.
  { by destruct Hstep as [[_ ?]|[? _]]. }
  split.
  - intros outs Hv.
    destruct (assigned_listing _ _ _ _ Hv) as (_ & Hids & _).
    apply Hids. exists t. split; [done|]. split; [done|]. split; [done|].
    rewrite Hst. apply list_elem_of_further, list_elem_of_here.
  - intros uid outs Hv Hin.
    destruct (assigned_listing _ _ _ _ Hv) as (_ & Hids & _).
    apply Hids in Hin as (t' & Ht' & _ & _ & Hact).
    simpl in Ht'. rewrite lookup_insert_eq in Ht'. injection Ht' as <-.
    simpl in Hact.
    apply elem_of_cons in Hact as [?|Hact]; [done|].
    apply elem_of_cons in Hact as [?|Hact]; [done|].
    by apply elem_of_nil in Hact.
Qed.

Lemma closing_takes_off_the_list_witness :
  ∃ outs,
    (get_tickets_assigned_to_user 1 1
       (update_ticket_status_by_assignee 200 201 10 1 closed 1
          (update_ticket_status_by_assignee 100 101 10 1 in_progress 1
             Sample.db).1).1).2 = inr outs
    ∧ 10 ∉ out_id <$> outs.
Proof.
  destruct (get_tickets_assigned_to_user 1 1
              (update_ticket_status_by_assignee 200 201 10 1 closed 1
                 (update_ticket_status_by_assignee 100 101 10 1 in_progress 1
                    Sample.db).1).1).2 as [e|outs] eqn:Hres.
  - vm_compute in Hres. discriminate Hres.
  - exists outs. split; [reflexivity|].
    apply (proj2 (closing_takes_off_the_list 200 201 10 1 1
                    (update_ticket_status_by_assignee 100 101 10 1 in_progress 1
                       Sample.db).1 I) 1 outs Hres).
Defined.

(** ** Deletion *)

Lemma project_admin_test d uid pid :
  existsb (λ pu, bool_decide (pu_project_id pu = pid)
                 && bool_decide (pu_role pu = ProjectRole_admin))
          (project_users_of uid d) = true
  ↔ project_admin d uid pid.
Proof.
  rewrite existsb_exists. unfold project_admin, project_users_of. split.
  - intros (pu & Hin & Htest). apply list_elem_of_In in Hin.
    apply list_elem_of_filter in Hin as [Hu Hin].
    apply andb_true_iff in Htest as [Hp Hr].
    apply bool_decide_eq_true in Hp, Hr. by exists pu.
  - intros (pu & Hin & Hu & Hp & Hr). exists pu. split.
    + apply list_elem_of_In. by apply list_elem_of_filter.
    + apply andb_true_iff. by rewrite !bool_decide_eq_true.
Qed.

Lemma delete_ticket_run ticket_id pid actor d :
  delete_ticket ticket_id pid actor d =
  match query_ticket ticket_id pid d with
  | None => (d, inl (HTTPException 404 "Ticket not found"))
  | Some t =>
      if bool_decide (created_by t = actor)
         || existsb (λ pu, bool_decide (pu_project_id pu = pid)
                           && bool_decide (pu_role pu = ProjectRole_admin))
                    (project_users_of actor d)
      then (with_tickets (delete ticket_id (tickets d)) d, inr tt)
      else (d, inl (HTTPException 403 "Not permitted"))
  end.
Proof.
  unfold delete_ticket. run.
  destruct (query_ticket ticket_id pid d) as [t|]; [|done].
  by destruct (_ || _).
Qed.

(** X6: deleting a ticket that is not in the project is answered with 404;
    a caller who neither created the ticket nor holds an admin row in this
    project, an admin of another project included, is answered with 403; in
    both cases nothing is written.  The creator and an admin of the project
    delete the row: the ticket is gone, every other ticket and every other
    table is as it was. *)
Theorem delete_by_creator_or_admin ticket_id pid actor d :
  let res := delete_ticket ticket_id pid actor d in
  ((∀ t, ¬ ticket_in_project d ticket_id pid t) → NotFound res.2 ∧ res.1 = d)
  ∧ (∀ t, ticket_in_project d ticket_id pid t →
       created_by t ≠ actor → ¬ project_admin d actor pid →
       Forbidden res.2 ∧ res.1 = d)
  ∧ (∀ t, ticket_in_project d ticket_id pid t →
       created_by t = actor ∨ project_admin d actor pid →
       res.2 = inr tt
       ∧ tickets res.1 !! ticket_id = None
       ∧ (∀ k, k ≠ ticket_id → tickets res.1 !! k = tickets d !! k)
       ∧ same_but_tickets d res.1).
Proof.
  simpl. rewrite delete_ticket_run.
  pose proof (project_admin_test d actor pid) as Hadm.
  split; [|split].
  - intros Hn%query_ticket_None. by rewrite Hn.
  - intros t Ht%query_ticket_Some Hc Hna. rewrite Ht.
    rewrite bool_decide_eq_false_2 by done. simpl.
    destruct (existsb _ _); [|done]. destruct Hna. by apply Hadm.
  - intros t Ht%query_ticket_Some Hperm. rewrite Ht.
    assert (bool_decide (created_by t = actor)
            || existsb (λ pu, bool_decide (pu_project_id pu = pid)
                              && bool_decide (pu_role pu = ProjectRole_admin))
                       (project_users_of actor d) = true) as ->.
    { apply orb_true_iff. destruct Hperm as [Hc|Ha].
      - left. by apply bool_decide_eq_true.
      - right. by apply Hadm. }
    simpl. split; [done|]. split; [apply lookup_delete_eq|].
    split; [|done]. intros k Hk. by apply lookup_delete_ne.
Qed.

Lemma delete_by_creator_or_admin_witness :
  Forbidden (delete_ticket 10 1 2 Sample.db).2
  ∧ (delete_ticket 10 1 2 Sample.db).1 = Sample.db.
Proof.
  apply (proj1 (proj2 (delete_by_creator_or_admin 10 1 2 Sample.db))
           (Sample.ticket open (Some 1) None)).
  - split; reflexivity.
  - discriminate.
  - intros (pu & Hin & Hu & Hp & Hr).
    repeat (apply elem_of_cons in Hin as [->|Hin]; [discriminate|]).
    by apply elem_of_nil in Hin.
Defined.

(** X7: once a ticket is deleted, every handler that names it answers 404:
    reading, updating the status, leaving feedback, reassigning and
    deleting again. *)
Theorem deleted_ticket_not_found ticket_id pid actor d :
  let d' := (delete_ticket ticket_id pid actor d).1 in
  succeeds (delete_ticket ticket_id pid actor d).2 →
  ∀ pid',
    NotFound (get_ticket_by_id ticket_id pid' d').2
    ∧ (∀ now_closed now_updated nxt who,
         NotFound (update_ticket_status_by_assignee
                     now_closed now_updated ticket_id pid' nxt who d').2)
    ∧ (∀ now upd who,
         NotFound (leave_feedback_by_creator now ticket_id pid' upd who d').2)
    ∧ (∀ target, NotFound (update_ticket_assignee ticket_id target pid' d').2)
    ∧ (∀ who, NotFound (delete_ticket ticket_id pid' who d').2).
Proof.
  simpl. rewrite delete_ticket_run.
  destruct (query_ticket ticket_id pid d) as [t|]; [|done].
  destruct (_ || _); [|done]. simpl. intros _ pid'.
  assert (query_ticket ticket_id pid'
            (with_tickets (delete ticket_id (tickets d)) d) = None) as Hgone.
  { unfold query_ticket. simpl. by rewrite lookup_delete_eq. }
  repeat split; intros;
    rewrite ?get_ticket_by_id_run, ?update_status_run, ?leave_feedback_run,
      ?update_assignee_run, ?delete_ticket_run, Hgone; done.
Qed.

Lemma deleted_ticket_not_found_witness :
  NotFound (get_ticket_by_id 10 1 (delete_ticket 10 1 1 Sample.db).1).2.
Proof.
  apply (deleted_ticket_not_found 10 1 1 Sample.db).
  vm_compute. exact I.
Defined.

(** ** Creation *)

Lemma autoincrement_above {V} (m : gmap Z V) k :
  is_Some (m !! k) → k < autoincrement m.
Proof.
  unfold autoincrement.
  assert (0 ≤ map_fold (λ k _ acc, Z.max k acc) 0 m
          ∧ ∀ k, is_Some (m !! k) → k ≤ map_fold (λ k _ acc, Z.max k acc) 0 m)
    as [_ Hmax]; [|intros Hk; specialize (Hmax k Hk); lia].
  apply (map_fold_weak_ind
           (λ acc (m : gmap Z V), 0 ≤ acc ∧ ∀ k, is_Some (m !! k) → k ≤ acc)).
  - split; [done|]. intros k' [v Hv]. by rewrite lookup_empty in Hv.
  - intros i x m' r Hi [Hr Hall]. split; [lia|].
    intros k' Hk'. destruct (decide (i = k')) as [->|Hne].
    + lia.
    + rewrite lookup_insert_ne in Hk' by done. specialize (Hall k' Hk'). lia.
Qed.

Lemma autoincrement_fresh {V} (m : gmap Z V) : m !! autoincrement m = None.
Proof.
  destruct (m !! autoincrement m) as [v|] eqn:Hm; [|done].
  assert (autoincrement m < autoincrement m); [|lia].
  apply autoincrement_above. by exists v.
Qed.

Lemma autoincrement_positive {V} (m : gmap Z V) : 1 ≤ autoincrement m.
Proof.
  unfold autoincrement.
  assert (0 ≤ map_fold (λ k (_ : V) acc, Z.max k acc) 0 m); [|lia].
  apply (map_fold_weak_ind (λ acc (_ : gmap Z V), 0 ≤ acc)); [done|].
  intros. lia.
Qed.

(** Every way [create_ticket] ends: an error with nothing written, or the
    insertion of a new row. *)
Lemma create_ticket_outcome ilike now ticket_in uid pid override d :
  let res := create_ticket ilike now ticket_in uid pid override d in
  (res.1 = d ∧ ¬ succeeds res.2)
  ∨ (∃ team project assignee wteam,
       (resolve_team ticket_in uid override d).2 = inr team
       ∧ passes_checks ilike ticket_in uid pid team d project assignee
       ∧ (resolve_worker_team ticket_in project d).2 = inr wteam
       ∧ res = (stored d (autoincrement (tickets d))
                  (new_row now ticket_in uid pid team assignee wteam),
                model_validate d (autoincrement (tickets d))
                  (new_row now ticket_in uid pid team assignee wteam))).
Proof.
  simpl. rewrite create_ticket_run.
  destruct (resolve_team _ _ _ d).2 as [?|team] eqn:Hteam; [left; simpl; split; [reflexivity|tauto]|].
  destruct (teams d !! team) eqn:Ht; [|left; simpl; split; [reflexivity|tauto]].
  destruct (projects d !! pid) as [project|] eqn:Hp; [|left; simpl; split; [reflexivity|tauto]].
  destruct (query_project_user uid pid d) eqn:Hl; [|left; simpl; split; [reflexivity|tauto]].
  destruct (_resolve_assignee _ _ _ d).2 as [?|assignee] eqn:Ha;
    [left; simpl; split; [reflexivity|tauto]|].
  destruct (resolve_worker_team _ _ d).2 as [?|wteam] eqn:Hw; [left; simpl; split; [reflexivity|tauto]|].
  right. exists team, project, assignee, wteam.
  split; [done|]. split; [|done]. by repeat split.
Qed.

(** X8: [create_ticket] never touches a ticket that exists: every ticket of
    the store is still there unchanged, and so is every other table.  The
    id of a ticket it returns was not in use, is at least 1 and is larger
    than every id in use. *)
Theorem create_keeps_existing_tickets ilike now ticket_in uid pid override d :
  let res := create_ticket ilike now ticket_in uid pid override d in
  (∀ k t, tickets d !! k = Some t → tickets res.1 !! k = Some t)
  ∧ same_but_tickets d res.1
  ∧ (∀ out, res.2 = inr out →
       tickets d !! out_id out = None
       ∧ 1 ≤ out_id out
       ∧ (∀ k, is_Some (tickets d !! k) → k < out_id out)
       ∧ dom (tickets res.1) = {[out_id out]} ∪ dom (tickets d)).
Proof.
  simpl.
  destruct (create_ticket_outcome ilike now ticket_in uid pid override d)
    as [[Hd Hfail]|(team & project & assignee & wteam & _ & _ & _ & Hres)];
    simpl in *.
  - rewrite Hd. split; [done|]. split; [done|].
    intros out Hout. rewrite Hout in Hfail. by destruct Hfail.
  - rewrite Hres. simpl. split; [|split; [done|]].
    + intros k t Hk. rewrite lookup_insert_ne; [done|].
      intros <-. by rewrite autoincrement_fresh in Hk.
    + intros out Hout.
      destruct (model_validate_fields _ _ _ _ Hout) as [-> _].
      split; [apply autoincrement_fresh|].
      split; [apply autoincrement_positive|].
      split; [apply autoincrement_above|].
      apply dom_insert_L.
Qed.

Lemma create_keeps_existing_tickets_witness :
  tickets (create_ticket ilike_infix 50
             (Sample.request TicketType_worker None None) 1 1 None Sample.db).1
    !! 10 = Some (Sample.ticket open (Some 1) None).
Proof.
  apply (proj1 (create_keeps_existing_tickets ilike_infix 50
                  (Sample.request TicketType_worker None None) 1 1 None
                  Sample.db)).
  reflexivity.
Defined.

Lemma query_project_user_None d uid pid :
  query_project_user uid pid d = None ↔ ¬ project_member d uid pid.
Proof.
  unfold query_project_user, project_member. rewrite head_filter_None. split.
  - intros Hall (pu & Hin & Hu & Hp). by apply (Hall pu).
  - intros Hn pu Hin [Hu Hp]. apply Hn. by exists pu.
Qed.

(** X9: the checks of [create_ticket] after the team is resolved, in their
    order: a team without a row gives 404 "Team not found"; then a project
    without a row gives 404 "Project not found"; then an author without a
    membership row in the project gives 403.  Nothing is written in any of
    these cases. *)
Theorem create_checks_in_order ilike now ticket_in uid pid override d team :
  (resolve_team ticket_in uid override d).2 = inr team →
  let res := create_ticket ilike now ticket_in uid pid override d in
  (teams d !! team = None →
     res = (d, inl (HTTPException 404 "Team not found")))
  ∧ (is_Some (teams d !! team) → projects d !! pid = None →
       res = (d, inl (HTTPException 404 "Project not found")))
  ∧ (is_Some (teams d !! team) → is_Some (projects d !! pid) →
       ¬ project_member d uid pid →
       res = (d, inl (HTTPException 403 "You are not a member of this project"))).
Proof.
  intros Hteam. simpl. rewrite create_ticket_run, Hteam. split; [|split].
  - by intros ->.
  - by intros [? ->] ->.
  - intros [? ->] [? ->] Hn%query_project_user_None. by rewrite Hn.
Qed.

Lemma create_checks_in_order_witness :
  create_ticket ilike_infix 50 (Sample.request TicketType_worker None None)
    3 1 (Some 1) Sample.db
  = (Sample.db, inl (HTTPException 403 "You are not a member of this project")).
Proof.
  apply (proj2 (proj2 (create_checks_in_order ilike_infix 50
                  (Sample.request TicketType_worker None None)
                  3 1 (Some 1) Sample.db 1 eq_refl))).
  - eexists. reflexivity.
  - eexists. reflexivity.
  - intros (pu & Hin & Hu & Hp).
    repeat (apply elem_of_cons in Hin as [->|Hin]; [discriminate Hu|]).
    by apply elem_of_nil in Hin.
Defined.

Lemma head_omap_Some {A B} (f : A → option B) (l : list A) (b : B) :
  head (omap f l) = Some b → ∃ a, a ∈ l ∧ f a = Some b.
Proof.
  intros Hh%head_Some_elem_of. by apply list_elem_of_omap in Hh.
Qed.

Lemma resolve_assignee_result ilike name pid d :
  match (_resolve_assignee ilike name pid d).2 with
  | inr None => name = None ∨ name = Some ""
  | inr (Some a) =>
      ∃ s u, name = Some s ∧ s ≠ "" ∧ project_member d a pid
             ∧ users d !! a = Some u
             ∧ ilike (user_name u) ("%" +:+ s +:+ "%") = true
  | inl e => e = HTTPException 404 "Assignee not found in this project"
             ∧ ∃ s, name = Some s ∧ s ≠ ""
  end.
Proof.
  unfold _resolve_assignee, truthy_str.
  destruct name as [s|]; simpl; [|by left].
  case_bool_decide as Hs; simpl; [right; by rewrite Hs|].
  run. destruct (head _) as [a|] eqn:Hh; simpl.
  - apply head_omap_Some in Hh as (pu & Hin & Hf).
    destruct (users d !! pu_user_id pu) as [u|] eqn:Hu; simpl in Hf; [|done].
    destruct (bool_decide (pu_project_id pu = pid) && ilike _ _) eqn:Htest;
      [|done].
    injection Hf as <-. apply andb_true_iff in Htest as [Hp Hlike].
    apply bool_decide_eq_true in Hp.
    exists s, u. repeat split; try done. by exists pu.
  - split; [done|]. by exists s.
Qed.

(** X10: a ticket that [create_ticket] returns is stored with the author as
    creator, in the given project, and the author has a membership row in
    that project.  Its assignee comes from the name in the request and from
    nothing else: with no name or the empty name the ticket has no
    assignee; otherwise the assignee is a user with a membership row in the
    project whose name matches the pattern [%name%]. *)
Theorem created_ticket_people ilike now ticket_in uid pid override d out :
  let res := create_ticket ilike now ticket_in uid pid override d in
  res.2 = inr out →
  project_member d uid pid
  ∧ ∃ t, tickets res.1 !! out_id out = Some t
         ∧ created_by t = uid ∧ project_id t = pid
         ∧ match assigned_to t with
           | None => TicketCreate.assigned_to_name ticket_in = None
                     ∨ TicketCreate.assigned_to_name ticket_in = Some ""
           | Some a =>
               ∃ s u, TicketCreate.assigned_to_name ticket_in = Some s
                      ∧ s ≠ "" ∧ project_member d a pid
                      ∧ users d !! a = Some u
                      ∧ ilike (user_name u) ("%" +:+ s +:+ "%") = true
           end.
Proof.
  simpl.
  destruct (create_ticket_outcome ilike now ticket_in uid pid override d)
    as [[_ Hfail]|(team & project & assignee & wteam & _ & Hpass & _ & Hres)];
    simpl in *.
  - intros Hout. rewrite Hout in Hfail. by destruct Hfail.
  - rewrite Hres. simpl. intros Hout.
    destruct (model_validate_fields _ _ _ _ Hout) as [-> _].
    destruct Hpass as (_ & _ & [link Hlink] & Ha).
    split.
    + apply head_filter_Some in Hlink as [Hin [Hu Hp]]. by exists link.
    + rewrite lookup_insert_eq. eexists. split; [done|]. simpl.
      split; [done|]. split; [done|].
      pose proof (resolve_assignee_result ilike
                    (TicketCreate.assigned_to_name ticket_in) pid d) as Hr.
      rewrite Ha in Hr. done.
Qed.

Lemma created_ticket_people_witness :
  project_member Sample.db 1 1.
Proof.
  destruct (create_ticket ilike_infix 50
              (Sample.request TicketType_worker None None) 1 1 None Sample.db).2
    as [e|out] eqn:Hres.
  - vm_compute in Hres. discriminate Hres.
  - apply (created_ticket_people ilike_infix 50
             (Sample.request TicketType_worker None None) 1 1 None Sample.db
             out Hres).
Defined.

(** X11: in a project that has no worker team, a request of type worker,
    which is the type a request has by default, and a request that names a
    worker team never create a ticket: the call fails and writes nothing. *)
Theorem worker_ticket_needs_worker_team
    ilike now ticket_in uid pid override d project :
  projects d !! pid = Some project →
  project_worker_team_id project = None →
  TicketCreate.type ticket_in = TicketType_worker
  ∨ is_Some (TicketCreate.worker_team_id ticket_in) →
  let res := create_ticket ilike now ticket_in uid pid override d in
  ¬ succeeds res.2 ∧ res.1 = d.
Proof.
  intros Hp Hnone Hreq. simpl.
  destruct (create_ticket_outcome ilike now ticket_in uid pid override d)
    as [[Hd Hfail]|(team & project' & assignee & wteam & _ & Hpass & Hw & _)];
    simpl in *; [done|].
  destruct Hpass as (_ & Hp' & _). rewrite Hp in Hp'. injection Hp' as <-.
  rewrite resolve_worker_team_run in Hw. cbn [snd] in Hw.
  destruct (TicketCreate.worker_team_id ticket_in) as [w|].
  - rewrite Hnone, decide_False in Hw; done.
  - destruct Hreq as [Hty|[? [=]]].
    rewrite Hnone, decide_True in Hw; done.
Qed.

Lemma worker_ticket_needs_worker_team_witness :
  ¬ succeeds (create_ticket ilike_infix 50
                (TicketCreate_defaults "Badge reader" "Door 3")
                1 2 None Sample.db).2
  ∧ (create_ticket ilike_infix 50
       (TicketCreate_defaults "Badge reader" "Door 3") 1 2 None Sample.db).1
    = Sample.db.
Proof.
  apply (worker_ticket_needs_worker_team ilike_infix 50
           (TicketCreate_defaults "Badge reader" "Door 3") 1 2 None Sample.db
           {| project_name := "lab"; project_worker_team_id := None |}).
  - reflexivity.
  - reflexivity.
  - left. reflexivity.
Defined.

(** ** What the writing handlers leave alone *)

Lemma update_status_writes now_closed now_updated ticket_id pid nxt actor d :
  let res := update_ticket_status_by_assignee
               now_closed now_updated ticket_id pid nxt actor d in
  (res.1 = d ∧ ¬ succeeds res.2)
  ∨ ∃ t, tickets d !! ticket_id = Some t
         ∧ one_step (status t) nxt
         ∧ res.1 = stored d ticket_id
                     (set_updated_at (Some now_updated)
                        ((if bool_decide (nxt = closed)
                          then set_closed_at (Some now_closed) else id)
                           (set_status nxt t))).
Proof.
  simpl. rewrite update_status_run.
  destruct (query_ticket ticket_id pid d) as [t|] eqn:Hq;
    [|left; simpl; split; [reflexivity|tauto]].
  apply query_ticket_Some in Hq as [Ht _].
  case_bool_decide; [|left; simpl; split; [reflexivity|tauto]].
  case_bool_decide; [|left; simpl; split; [reflexivity|tauto]].
  right. exists t. by rewrite load_stored.
Qed.

Lemma leave_feedback_writes now ticket_id pid upd actor d :
  let res := leave_feedback_by_creator now ticket_id pid upd actor d in
  (res.1 = d ∧ ¬ succeeds res.2)
  ∨ ∃ t, tickets d !! ticket_id = Some t
         ∧ status t = closed
         ∧ res.1 = stored d ticket_id
                     (set_updated_at (Some now)
                        (set_confirmed (TicketFeedbackUpdate.confirmed upd)
                           (set_feedback
                              (or_str (TicketFeedbackUpdate.feedback upd)
                                      (feedback t)) t))).
Proof.
  simpl. rewrite leave_feedback_run.
  destruct (query_ticket ticket_id pid d) as [t|] eqn:Hq;
    [|left; simpl; split; [reflexivity|tauto]].
  apply query_ticket_Some in Hq as [Ht _].
  case_bool_decide; [|left; simpl; split; [reflexivity|tauto]].
  case_bool_decide; [|left; simpl; split; [reflexivity|tauto]].
  right. by exists t.
Qed.

Lemma update_assignee_writes ticket_id target pid d :
  let res := update_ticket_assignee ticket_id target pid d in
  (res.1 = d ∧ ¬ succeeds res.2)
  ∨ ∃ t, tickets d !! ticket_id = Some t
         ∧ res.1 = stored d ticket_id (set_assigned_to (Some target) t).
Proof.
  simpl. rewrite update_assignee_run.
  destruct (query_ticket ticket_id pid d) as [t|] eqn:Hq;
    [|left; simpl; split; [reflexivity|tauto]].
  apply query_ticket_Some in Hq as [Ht _].
  destruct (query_project_user_with_role _ _ _ d);
    [|left; simpl; split; [reflexivity|tauto]].
  destruct (query_project_user target pid d);
    [|left; simpl; split; [reflexivity|tauto]].
  case_bool_decide; [|left; simpl; split; [reflexivity|tauto]].
  destruct (users d !! target) as [u|];
    [|left; simpl; split; [reflexivity|tauto]].
  destruct (is_available u); [|left; simpl; split; [reflexivity|tauto]].
  right. by exists t.
Qed.

Lemma with_user_teams_same d : with_user_teams (user_teams d) d = d.
Proof. by destruct d. Qed.

Lemma filter_out_nothing {A} (P : A → Prop) `{!∀ x, Decision (P x)} (l : list A) :
  length (filter P l) = 0%nat → filter (λ x, ¬ P x) l = l.
Proof.
  induction l as [|x l IH]; [done|].
  rewrite !filter_cons. destruct (decide (P x)) as [HP|HP]; simpl; [done|].
  intros Hl. rewrite decide_True by done. by rewrite IH.
Qed.

Lemma remove_user_from_team_run user_id tid caller d :
  remove_user_from_team user_id tid caller d =
  if existsb (λ ut, bool_decide (ut_team_id ut = tid)
                    && bool_decide (ut_role ut = TeamRole_admin))
             (user_teams_of caller d)
  then
    if bool_decide (length (filter (λ ut, ut_user_id ut = user_id
                                          ∧ ut_team_id ut = tid)
                                   (user_teams d)) = 0%nat)
    then (d, inl (HTTPException 404 "User not in this team"))
    else (with_user_teams
            (filter (λ ut, ¬ (ut_user_id ut = user_id ∧ ut_team_id ut = tid))
                    (user_teams d)) d, inr tt)
  else (d, inl (HTTPException 403 "Requires team admin role.")).
Proof.
  unfold remove_user_from_team, _ensure_team_admin. run.
  destruct (existsb _ _); simpl; [|done].
  case_bool_decide as Hz; [|done].
  by rewrite (filter_out_nothing _ _ Hz), with_user_teams_same.
Qed.

Lemma add_user_to_team_run now user_id tid role caller d :
  add_user_to_team now user_id tid role caller d =
  if existsb (λ ut, bool_decide (ut_team_id ut = tid)
                    && bool_decide (ut_role ut = TeamRole_admin))
             (user_teams_of caller d)
  then
    match head (filter (λ ut, ut_user_id ut = user_id ∧ ut_team_id ut = tid)
                       (user_teams d)) with
    | Some _ => (d, inl (HTTPException 400 "User already in team"))
    | None =>
        let row := {| ut_user_id := user_id; ut_team_id := tid;
                      ut_role := default TeamRole_member role;
                      ut_joined_at := now |} in
        (with_user_teams (user_teams d ++ [row]) d, inr row)
    end
  else (d, inl (HTTPException 403 "Requires team admin role.")).
Proof.
  unfold add_user_to_team, _ensure_team_admin. run.
  destruct (existsb _ _); simpl; [|done]. by destruct (head _).
Qed.

(** X12: every error answer of the service leaves the store as it was: when
    a writing handler answers with an HTTP error, whatever its status code,
    nothing has been written. *)
Theorem http_errors_write_nothing d :
  (∀ ilike now ticket_in uid pid override,
     let res := create_ticket ilike now ticket_in uid pid override d in
     http_error res.2 → res.1 = d)
  ∧ (∀ now_closed now_updated ticket_id pid nxt actor,
       let res := update_ticket_status_by_assignee
                    now_closed now_updated ticket_id pid nxt actor d in
       http_error res.2 → res.1 = d)
  ∧ (∀ now ticket_id pid upd actor,
       let res := leave_feedback_by_creator now ticket_id pid upd actor d in
       http_error res.2 → res.1 = d)
  ∧ (∀ ticket_id target pid,
       let res := update_ticket_assignee ticket_id target pid d in
       http_error res.2 → res.1 = d)
  ∧ (∀ ticket_id pid actor,
       let res := delete_ticket ticket_id pid actor d in
       http_error res.2 → res.1 = d)
  ∧ (∀ now user_id tid role caller,
       let res := add_user_to_team now user_id tid role caller d in
       http_error res.2 → res.1 = d)
  ∧ (∀ user_id tid caller,
       let res := remove_user_from_team user_id tid caller d in
       http_error res.2 → res.1 = d).
Proof.
  assert (∀ k t, ¬ http_error (model_validate d k t)) as Hval.
  { intros k t. unfold model_validate.
    destruct (user_brief _ _); [|tauto]. destruct (priority _); simpl; tauto. }
  repeat apply conj; simpl.
  - intros ilike now ticket_in uid pid override.
    destruct (create_ticket_outcome ilike now ticket_in uid pid override d)
      as [[Hd _]|(team & project & assignee & wteam & _ & _ & _ & Hres)];
      simpl in *; [done|].
    rewrite Hres. simpl. intros Hh. by apply Hval in Hh.
  - intros now_closed now_updated ticket_id pid nxt actor.
    rewrite update_status_run.
    destruct (query_ticket ticket_id pid d); [|done].
    repeat case_bool_decide; try done; rewrite load_stored; simpl;
      intros Hh; by apply Hval in Hh.
  - intros now ticket_id pid upd actor. rewrite leave_feedback_run.
    destruct (query_ticket ticket_id pid d); [|done].
    repeat case_bool_decide; try done. simpl. intros Hh. by apply Hval in Hh.
  - intros ticket_id target pid. rewrite update_assignee_run.
    destruct (query_ticket ticket_id pid d); [|done].
    destruct (query_project_user_with_role _ _ _ d); [|done].
    destruct (query_project_user target pid d); [|done].
    case_bool_decide; [|done].
    destruct (users d !! target) as [u|]; [|done].
    destruct (is_available u); [|done].
    simpl. intros Hh. by apply Hval in Hh.
  - intros ticket_id pid actor. rewrite delete_ticket_run.
    destruct (query_ticket ticket_id pid d); [|done].
    by destruct (_ || _).
  - intros now user_id tid role caller. rewrite add_user_to_team_run.
    destruct (existsb _ _); [|done]. by destruct (head _).
  - intros user_id tid caller. rewrite remove_user_from_team_run.
    destruct (existsb _ _); [|done]. by case_bool_decide.
Qed.

Lemma http_errors_write_nothing_witness :
  (remove_user_from_team 3 1 1 Sample.db).1 = Sample.db.
Proof.
  apply (proj2 (proj2 (proj2 (proj2 (proj2 (proj2
           (http_errors_write_nothing Sample.db)))))) 3 1 1).
  vm_compute. exact I.
Defined.

Lemma writes_at_most_stored d ticket_id t t' :
  tickets d !! ticket_id = Some t → writes_at_most ticket_id d (stored d ticket_id t').
Proof.
  intros Ht. split; [done|]. split.
  - simpl. apply dom_insert_lookup_L. by exists t.
  - intros k Hk. simpl. by rewrite lookup_insert_ne.
Qed.

Lemma writes_at_most_same d ticket_id : writes_at_most ticket_id d d.
Proof. done. Qed.

(** X13: a status update, feedback and a reassignment write at most the
    ticket they name: no ticket appears or disappears, every other ticket
    is as it was, and so are the users, teams, projects and memberships. *)
Theorem updates_name_their_ticket d ticket_id pid :
  (∀ now_closed now_updated nxt actor,
     writes_at_most ticket_id d
       (update_ticket_status_by_assignee
          now_closed now_updated ticket_id pid nxt actor d).1)
  ∧ (∀ now upd actor,
       writes_at_most ticket_id d
         (leave_feedback_by_creator now ticket_id pid upd actor d).1)
  ∧ (∀ target,
       writes_at_most ticket_id d
         (update_ticket_assignee ticket_id target pid d).1).
Proof.
  repeat apply conj.
  - intros now_closed now_updated nxt actor.
    destruct (update_status_writes now_closed now_updated ticket_id pid nxt actor d)
      as [[-> _]|(t & Ht & _ & ->)];
      [apply writes_at_most_same|by eapply writes_at_most_stored].
  - intros now upd actor.
    destruct (leave_feedback_writes now ticket_id pid upd actor d)
      as [[-> _]|(t & Ht & _ & ->)];
      [apply writes_at_most_same|by eapply writes_at_most_stored].
  - intros target.
    destruct (update_assignee_writes ticket_id target pid d)
      as [[-> _]|(t & Ht & ->)];
      [apply writes_at_most_same|by eapply writes_at_most_stored].
Qed.

Lemma later_state_refl t : later_state t t.
Proof. unfold later_state, same_fixed_columns. by repeat split. Qed.

Lemma later_state_trans t1 t2 t3 :
  later_state t1 t2 → later_state t2 t3 → later_state t1 t3.
Proof.
  intros (Hr1 & Hc1 & Hf1) (Hr2 & Hc2 & Hf2). split; [lia|]. split.
  - intros Hc. destruct (Hc1 Hc) as [Hc' Ha]. destruct (Hc2 Hc') as [? Ha'].
    split; [done|congruence].
  - unfold same_fixed_columns in *.
    destruct Hf1 as (?&?&?&?&?&?&?&?&?), Hf2 as (?&?&?&?&?&?&?&?&?).
    repeat split; congruence.
Qed.

Lemma later_state_stored d ticket_id t t' :
  tickets d !! ticket_id = Some t → later_state t t' →
  ∀ k t0, tickets d !! k = Some t0 →
    ∃ t1, tickets (stored d ticket_id t') !! k = Some t1 ∧ later_state t0 t1.
Proof.
  intros Ht Hl k t0 Hk. simpl. destruct (decide (ticket_id = k)) as [<-|Hne].
  - rewrite lookup_insert_eq. exists t'. split; [done|]. congruence.
  - rewrite lookup_insert_ne by done. exists t0. split; [done|].
    apply later_state_refl.
Qed.

Lemma keeping_call_later d d' :
  keeping_call d d' →
  ∀ k t, tickets d !! k = Some t →
    ∃ t', tickets d' !! k = Some t' ∧ later_state t t'.
Proof.
  assert (∀ k t, tickets d !! k = Some t →
            ∃ t', tickets d !! k = Some t' ∧ later_state t t') as Hsame.
  { intros k t Hk. exists t. split; [done|apply later_state_refl]. }
  intros [].
  - destruct (create_ticket_outcome ilike now ticket_in uid pid override d)
      as [[Hd _]|(team & project & assignee & wteam & _ & _ & _ & Hres)];
      simpl in *.
    + by rewrite Hd.
    + rewrite Hres. simpl. intros k t Hk. exists t.
      split; [|apply later_state_refl].
      rewrite lookup_insert_ne; [done|].
      intros <-. by rewrite autoincrement_fresh in Hk.
  - destruct (update_status_writes now_closed now_updated ticket_id pid nxt actor d)
      as [[-> _]|(t & Ht & Hstep & ->)]; [done|].
    apply (later_state_stored _ _ t); [done|].
    unfold later_state, same_fixed_columns.
    destruct Hstep as [[Ho ->]|[Hi ->]]; rewrite ?Ho, ?Hi; simpl;
      by repeat split.
  - destruct (leave_feedback_writes now ticket_id pid upd actor d)
      as [[-> _]|(t & Ht & Hc & ->)]; [done|].
    apply (later_state_stored _ _ t); [done|].
    unfold later_state, same_fixed_columns. simpl. by repeat split.
  - destruct (update_assignee_writes ticket_id target pid d)
      as [[-> _]|(t & Ht & ->)]; [done|].
    apply (later_state_stored _ _ t); [done|].
    unfold later_state, same_fixed_columns. simpl. by repeat split.
  - by rewrite add_user_to_team_tickets.
  - by rewrite remove_user_from_team_tickets.
  - done.
Qed.

(** X14: over any sequence of calls of the writing handlers other than
    [delete_ticket], a ticket stays in the store, its status never moves
    back, a closed ticket stays closed with the [closed_at] it has, and its
    title, description, type, priority, creator, worker team, team, project
    and [created_at] never change. *)
Theorem closed_is_final d d' k t :
  rtc keeping_call d d' →
  tickets d !! k = Some t →
  ∃ t', tickets d' !! k = Some t' ∧ later_state t t'.
Proof.
  intros Hcalls. revert t. induction Hcalls as [d|d d1 d' Hcall _ IH]; intros t Hk.
  - exists t. split; [done|apply later_state_refl].
  - destruct (keeping_call_later _ _ Hcall k t Hk) as (t1 & Hk1 & Hl1).
    destruct (IH t1 Hk1) as (t' & Hk' & Hl').
    exists t'. split; [done|]. by eapply later_state_trans.
Qed.

Lemma closed_is_final_witness :
  ∃ t', tickets (leave_feedback_by_creator 9 11 1
                   {| TicketFeedbackUpdate.feedback := Some "fixed";
                      TicketFeedbackUpdate.confirmed := true |} 1
                   (update_ticket_status_by_assignee 100 101 11 1 open 1
                      Sample.db).1).1 !! 11 = Some t'
        ∧ later_state (Sample.ticket closed (Some 1) (Some 5)) t'.
Proof.
  apply (closed_is_final Sample.db _ 11 (Sample.ticket closed (Some 1) (Some 5))).
  - eapply rtc_l; [apply (call_status Sample.db 100 101 11 1 open 1)|].
    eapply rtc_l; [|apply rtc_refl].
    apply (call_feedback _ 9 11 1
             {| TicketFeedbackUpdate.feedback := Some "fixed";
                TicketFeedbackUpdate.confirmed := true |} 1).
  - reflexivity.
Defined.

(** ** Invariants over sequences of calls *)

Lemma feedback_invariant_stored d ticket_id t :
  feedback_invariant d → feedback_only_closed t →
  feedback_invariant (stored d ticket_id t).
Proof. intros Hd Ht. by apply map_Forall_insert_2. Qed.

Lemma call_keeps_feedback_invariant d d' :
  call d d' → feedback_invariant d → feedback_invariant d'.
Proof.
  intros [d1 []|ticket_id pid actor] Hd.
  - destruct (create_ticket_outcome ilike now ticket_in uid pid override d)
      as [[Hd' _]|(team & project & assignee & wteam & _ & _ & _ & Hres)];
      simpl in *.
    + by rewrite Hd'.
    + rewrite Hres. simpl. by apply feedback_invariant_stored.
  - destruct (update_status_writes now_closed now_updated ticket_id pid nxt actor d)
      as [[-> _]|(t & Ht & Hstep & ->)]; [done|].
    apply feedback_invariant_stored; [done|].
    pose proof (map_Forall_lookup_1 _ _ _ _ Hd Ht) as Hinv.
    unfold feedback_only_closed in *.
    destruct Hstep as [[Ho ->]|[Hi ->]]; simpl; [|done].
    intros _. apply Hinv. by rewrite Ho.
  - destruct (leave_feedback_writes now ticket_id pid upd actor d)
      as [[-> _]|(t & Ht & Hc & ->)]; [done|].
    apply feedback_invariant_stored; [done|].
    unfold feedback_only_closed. simpl. by rewrite Hc.
  - destruct (update_assignee_writes ticket_id target pid d)
      as [[-> _]|(t & Ht & ->)]; [done|].
    apply feedback_invariant_stored; [done|].
    exact (map_Forall_lookup_1 _ _ _ _ Hd Ht).
  - unfold feedback_invariant. by rewrite add_user_to_team_tickets.
  - unfold feedback_invariant. by rewrite remove_user_from_team_tickets.
  - done.
  - destruct (delete_ticket_writes ticket_id pid actor d) as [-> | ->]; [done|].
    by apply map_Forall_delete.
Qed.

(** X15: feedback and confirmation are written on closed tickets only.  On
    a store where every ticket that is not closed has no feedback and is
    not confirmed, as every new ticket is, any sequence of calls of the
    writing handlers leaves such a store. *)
Theorem feedback_waits_for_close d d' :
  feedback_invariant d → rtc call d d' → feedback_invariant d'.
Proof.
  intros Hd Hcalls. induction Hcalls as [d|d d1 d' Hcall _ IH]; [done|].
  apply IH. by eapply call_keeps_feedback_invariant.
Qed.

Lemma feedback_waits_for_close_witness :
  feedback_invariant
    (leave_feedback_by_creator 9 1 1
       {| TicketFeedbackUpdate.feedback := Some "fixed";
          TicketFeedbackUpdate.confirmed := true |} 1
       (create_ticket ilike_infix 50
          (Sample.request TicketType_worker None None) 1 1 None
          (with_tickets ∅ Sample.db)).1).1.
Proof.
  apply (feedback_waits_for_close (with_tickets ∅ Sample.db)).
  - apply map_Forall_empty.
  - eapply rtc_l.
    + apply call_keeping.
      apply (call_create _ ilike_infix 50
               (Sample.request TicketType_worker None None) 1 1 None).
    + eapply rtc_l; [|apply rtc_refl].
      apply call_keeping.
      apply (call_feedback _ 9 1 1
               {| TicketFeedbackUpdate.feedback := Some "fixed";
                  TicketFeedbackUpdate.confirmed := true |} 1).
Defined.

(** ** Team membership *)

Lemma call_user_teams d d' :
  call d d' →
  user_teams d' = user_teams d
  ∨ (∃ now user_id tid role caller,
       d' = (add_user_to_team now user_id tid role caller d).1)
  ∨ (∃ user_id tid caller, d' = (remove_user_from_team user_id tid caller d).1).
Proof.
  intros [d1 []|ticket_id pid actor].
  - left.
    destruct (create_ticket_outcome ilike now ticket_in uid pid override d)
      as [[Hd' _]|(team & project & assignee & wteam & _ & _ & _ & Hres)];
      simpl in *; [by rewrite Hd'|by rewrite Hres].
  - left.
    by destruct (update_status_writes now_closed now_updated ticket_id pid nxt actor d)
      as [[-> _]|(t & _ & _ & ->)].
  - left.
    by destruct (leave_feedback_writes now ticket_id pid upd actor d)
      as [[-> _]|(t & _ & _ & ->)].
  - left.
    by destruct (update_assignee_writes ticket_id target pid d)
      as [[-> _]|(t & _ & ->)].
  - right. left. by exists now, user_id, tid, role, caller.
  - right. right. by exists user_id, tid, caller.
  - by left.
  - left. by destruct (delete_ticket_writes ticket_id pid actor d) as [-> | ->].
Qed.

Lemma adding_keeps_unique now user_id tid role caller d :
  unique_team_memberships d →
  unique_team_memberships (add_user_to_team now user_id tid role caller d).1.
Proof.
  intros Hu. rewrite add_user_to_team_run.
  destruct (existsb _ _); [|done].
  destruct (head _) eqn:Hh; [done|].
  unfold unique_team_memberships. simpl.
  rewrite fmap_app. apply NoDup_app. split; [done|]. split.
  - intros key Hin Hnew. simpl in Hnew.
    apply list_elem_of_singleton in Hnew as ->.
    apply list_elem_of_fmap in Hin as (ut & [= Huid Htid] & Hin).
    by apply (proj1 (head_filter_None _ _) Hh ut).
  - simpl. apply NoDup_singleton.
Qed.

Lemma removing_keeps_unique user_id tid caller d :
  unique_team_memberships d →
  unique_team_memberships (remove_user_from_team user_id tid caller d).1.
Proof.
  intros Hu. rewrite remove_user_from_team_run.
  destruct (existsb _ _); [|done]. case_bool_decide; [done|].
  unfold unique_team_memberships in *. simpl.
  revert Hu. generalize (user_teams d). intros l.
  induction l as [|ut l IH]; [done|].
  rewrite fmap_cons, NoDup_cons. intros [Hnin Hnd].
  rewrite filter_cons. case_decide; [|by apply IH].
  rewrite fmap_cons. apply NoDup_cons. split; [|by apply IH].
  intros Hin. apply Hnin.
  apply list_elem_of_fmap in Hin as (ut' & Hkey & Hin').
  apply list_elem_of_filter in Hin' as [_ Hin'].
  apply list_elem_of_fmap. by exists ut'.
Qed.

(** X16: on a store where each user has at most one membership row per
    team, any sequence of calls of the writing handlers leaves such a
    store: [add_user_to_team] never adds a second row for a pair. *)
Theorem team_memberships_stay_unique d d' :
  unique_team_memberships d → rtc call d d' → unique_team_memberships d'.
Proof.
  intros Hd Hcalls. induction Hcalls as [d|d d1 d' Hcall _ IH]; [done|].
  apply IH.
  destruct (call_user_teams _ _ Hcall)
    as [Hsame|[(now & user_id & tid & role & caller & ->)
              |(user_id & tid & caller & ->)]].
  - unfold unique_team_memberships. by rewrite Hsame.
  - by apply adding_keeps_unique.
  - by apply removing_keeps_unique.
Qed.

Lemma team_memberships_stay_unique_witness :
  unique_team_memberships (add_user_to_team 9 3 1 None 1 Sample.db).1.
Proof.
  apply (team_memberships_stay_unique Sample.db).
  - apply (bool_decide_unpack _). vm_compute. exact I.
  - eapply rtc_l; [|apply rtc_refl].
    apply call_keeping. apply (call_add_user _ 9 3 1 None 1).
Defined.

Lemma filter_app_last_out {A} (P : A → Prop) `{!∀ x, Decision (P x)}
    (l : list A) (x : A) :
  (∀ y, y ∈ l → ¬ P y) → P x → filter (λ y, ¬ P y) (l ++ [x]) = l.
Proof.
  intros Hl Hx. rewrite filter_app, filter_cons, decide_False by tauto.
  rewrite filter_nil, app_nil_r.
  induction l as [|y l IH]; [done|].
  rewrite filter_cons, decide_True.
  - rewrite IH; [done|]. intros z Hz. apply Hl. by right.
  - apply Hl. by left.
Qed.

Lemma with_user_teams_twice l l' d :
  with_user_teams l (with_user_teams l' d) = with_user_teams l d.
Proof. done. Qed.

(** X17: a membership that [add_user_to_team] has created can be taken back
    and cannot be created twice.  After a call that returns, the same
    caller removing the same user from the team succeeds and gives back
    the store as it was before the member was added; and adding the same
    user to the team again, by any caller and with any role, fails. *)
Theorem membership_once_and_back now user_id tid role caller d :
  let res := add_user_to_team now user_id tid role caller d in
  succeeds res.2 →
  remove_user_from_team user_id tid caller res.1 = (d, inr tt)
  ∧ ∀ now' role' caller',
      ¬ succeeds (add_user_to_team now' user_id tid role' caller' res.1).2.
Proof.
  simpl. rewrite add_user_to_team_run.
  destruct (existsb _ _) eqn:Hadm; [|done].
  destruct (head _) eqn:Hh; [done|]. simpl. intros _.
  set (row := {| ut_user_id := user_id; ut_team_id := tid;
                 ut_role := default TeamRole_member role;
                 ut_joined_at := now |}).
  pose proof (proj1 (head_filter_None _ _) Hh) as Hnone.
  split.
  - rewrite remove_user_from_team_run.
    assert (existsb (λ ut, bool_decide (ut_team_id ut = tid)
                           && bool_decide (ut_role ut = TeamRole_admin))
              (user_teams_of caller
                 (with_user_teams (user_teams d ++ [row]) d)) = true) as ->.
    { apply ensure_team_admin_test. apply ensure_team_admin_test in Hadm.
      destruct Hadm as (ut & (Hin & Hu & Ht) & Hr). exists ut.
      split; [|done]. split; [|done]. simpl. apply elem_of_app. by left. }
    simpl. rewrite filter_app, length_app, filter_cons, decide_True by done.
    rewrite bool_decide_eq_false_2 by (simpl; lia).
    rewrite (filter_app_last_out _ _ row Hnone) by done.
    by rewrite with_user_teams_twice, with_user_teams_same.
  - intros now' role' caller'. rewrite add_user_to_team_run.
    destruct (existsb _ (user_teams_of caller' _)); [|simpl; tauto]. simpl.
    rewrite filter_app, filter_cons, decide_True by done.
    rewrite (proj1 (head_None _) Hh). simpl. tauto.
Qed.

Lemma membership_once_and_back_witness :
  remove_user_from_team 3 1 1 (add_user_to_team 9 3 1 None 1 Sample.db).1
  = (Sample.db, inr tt).
Proof.
  apply (membership_once_and_back 9 3 1 None 1 Sample.db).
  vm_compute. exact I.
Defined.

(** X18: removing a member is answered with 403 unless the caller has an
    admin row in the team, and with 404 when the user has no row in the
    team, the store being left as it was.  Otherwise every row of the user
    in the team is removed and the other rows stay, in their order.
    Nothing keeps an admin from removing themself: a caller who does so
    is answered with 403 by the membership handlers of the team from then
    on. *)
Theorem remove_member_guards now user_id tid caller d :
  let res := remove_user_from_team user_id tid caller d in
  (¬ team_admin d caller tid → Forbidden res.2 ∧ res.1 = d)
  ∧ (team_admin d caller tid → ¬ team_member d user_id tid →
       NotFound res.2 ∧ res.1 = d)
  ∧ (team_admin d caller tid → team_member d user_id tid →
       res.2 = inr tt
       ∧ ¬ team_member res.1 user_id tid
       ∧ user_teams res.1
         = filter (λ ut, ¬ (ut_user_id ut = user_id ∧ ut_team_id ut = tid))
                  (user_teams d)
       ∧ tickets res.1 = tickets d ∧ users res.1 = users d
       ∧ (caller = user_id →
          ∀ role who,
            Forbidden (add_user_to_team now who tid role caller res.1).2
            ∧ Forbidden (remove_user_from_team who tid caller res.1).2)).
Proof.
  simpl. rewrite remove_user_from_team_run.
  pose proof (ensure_team_admin_test d caller tid) as Hadm.
  assert (length (filter (λ ut, ut_user_id ut = user_id ∧ ut_team_id ut = tid)
                         (user_teams d)) = 0%nat
          ↔ ¬ team_member d user_id tid) as Hcount.
  { rewrite <- membership_exists_test, head_None. apply length_zero_iff_nil. }
  destruct (existsb _ _).
  - split; [intros Hn; destruct Hn; by apply Hadm|].
    case_bool_decide as Hz.
    + split; [done|]. intros _ Hm. by apply Hcount in Hz.
    + split; [intros _ Hn; by apply Hcount in Hn|].
      intros _ _. simpl.
      assert (¬ team_member
                  (with_user_teams
                     (filter (λ ut, ¬ (ut_user_id ut = user_id
                                       ∧ ut_team_id ut = tid))
                             (user_teams d)) d) user_id tid) as Hgone.
      { intros (ut & Hin & Hu & Ht). simpl in Hin.
        apply list_elem_of_filter in Hin as [Hnot _]. by apply Hnot. }
      split; [done|]. split; [exact Hgone|]. do 3 (split; [done|]).
      intros -> role who.
      assert (existsb (λ ut, bool_decide (ut_team_id ut = tid)
                             && bool_decide (ut_role ut = TeamRole_admin))
                (user_teams_of user_id
                   (with_user_teams
                      (filter (λ ut, ¬ (ut_user_id ut = user_id
                                        ∧ ut_team_id ut = tid))
                              (user_teams d)) d)) = false) as Hno.
      { apply not_true_iff_false. intros Ha%ensure_team_admin_test.
        apply Hgone. destruct Ha as (ut & Hrow & _). by exists ut. }
      split.
      * by rewrite add_user_to_team_run, Hno.
      * by rewrite remove_user_from_team_run, Hno.
  - split; [done|]. split; intros Ha; apply Hadm in Ha; discriminate.
Qed.

Lemma remove_member_guards_witness :
  NotFound (remove_user_from_team 3 1 1 Sample.db).2
  ∧ (remove_user_from_team 3 1 1 Sample.db).1 = Sample.db.
Proof.
  apply (proj1 (proj2 (remove_member_guards 0 3 1 1 Sample.db))).
  - exists {| ut_user_id := 1; ut_team_id := 1;
              ut_role := TeamRole_admin; ut_joined_at := 0 |}.
    split; [split; [apply list_elem_of_here | split; reflexivity] | reflexivity].
  - intros (ut & Hin & Hu & Ht).
    repeat (apply elem_of_cons in Hin as [->|Hin]; [discriminate Hu|]).
    by apply elem_of_nil in Hin.
Defined.

(** ** Availability *)

(** X19: [update_my_availability] writes the flag of the caller's row and
    nothing else: the name of the caller, the other users and the other
    tables are as they were, and the row returned carries the flag.  After
    a user has set the flag to false, no reassignment to that user
    succeeds, on any ticket of any project. *)
Theorem availability_gates_reassignment available caller d :
  let res := update_my_availability available caller d in
  (∀ u, users d !! caller = Some u →
        res.2 = inr (Some {| user_name := user_name u;
                             is_available := available |})
        ∧ users res.1 !! caller = Some {| user_name := user_name u;
                                          is_available := available |})
  ∧ (∀ other, other ≠ caller → users res.1 !! other = users d !! other)
  ∧ tickets res.1 = tickets d ∧ teams res.1 = teams d
  ∧ projects res.1 = projects d ∧ user_teams res.1 = user_teams d
  ∧ project_users res.1 = project_users d
  ∧ (available = false →
     ∀ ticket_id pid,
       ¬ succeeds (update_ticket_assignee ticket_id caller pid res.1).2).
Proof.
  simpl. unfold update_my_availability. run. split; [|split].
  - intros u Hu. rewrite lookup_alter_eq, Hu. done.
  - intros other Hne. by rewrite lookup_alter_ne.
  - repeat split. intros -> ticket_id pid. rewrite update_assignee_run.
    destruct (query_ticket _ _ _); [|simpl; tauto].
    destruct (query_project_user_with_role _ _ _ _); [|simpl; tauto].
    destruct (query_project_user _ _ _); [|simpl; tauto].
    case_bool_decide; [|simpl; tauto].
    simpl. rewrite lookup_alter_eq.
    destruct (users d !! caller); simpl; tauto.
Qed.

Lemma availability_gates_reassignment_witness :
  ¬ succeeds (update_ticket_assignee 10 3 1
                (update_my_availability false 3 Sample.db_two_rows).1).2.
Proof.
  apply (proj2 (proj2 (proj2 (proj2 (proj2 (proj2 (proj2
           (availability_gates_reassignment false 3 Sample.db_two_rows))))))) eq_refl).
Defined.

(** ** The first steps of a new ticket *)

(** X20: a ticket that [create_ticket] returns is open.  Leaving feedback
    on it and closing it directly are refused for every caller, and the
    user it was assigned to at creation can move it to [in_progress]: that
    call returns the ticket with the new status. *)
Theorem new_ticket_first_steps ilike now ticket_in uid pid override d out :
  let res := create_ticket ilike now ticket_in uid pid override d in
  res.2 = inr out →
  out_status out = open
  ∧ (∀ now' pid' upd who,
       ¬ succeeds (leave_feedback_by_creator
                     now' (out_id out) pid' upd who res.1).2)
  ∧ (∀ now_closed now_updated pid' who,
       ¬ succeeds (update_ticket_status_by_assignee
                     now_closed now_updated (out_id out) pid' closed who res.1).2)
  ∧ (∀ now_closed now_updated a t,
       tickets res.1 !! out_id out = Some t → assigned_to t = Some a →
       ∃ out', (update_ticket_status_by_assignee
                  now_closed now_updated (out_id out) pid in_progress a res.1).2
               = inr out'
               ∧ out_id out' = out_id out ∧ out_status out' = in_progress).
Proof.
  simpl.
  destruct (create_ticket_outcome ilike now ticket_in uid pid override d)
    as [[_ Hfail]|(team & project & assignee & wteam & _ & _ & _ & Hres)];
    simpl in *.
  - intros Hout. rewrite Hout in Hfail. by destruct Hfail.
  - rewrite Hres. simpl. intros Hout.
    destruct (model_validate_fields _ _ _ _ Hout) as (Hid & Hst & _).
    rewrite Hid. clear Hres.
    set (id := autoincrement (tickets d)) in *.
    set (row := new_row now ticket_in uid pid team assignee wteam) in *.
    assert (∀ pid', query_ticket id pid' (stored d id row)
                    = if bool_decide (pid = pid') then Some row else None)
      as Hq.
    { intros pid'. unfold query_ticket. simpl. by rewrite lookup_insert_eq. }
    split; [done|]. split; [|split].
    + intros now' pid' upd who. rewrite leave_feedback_run, Hq.
      case_bool_decide; [|simpl; tauto].
      case_bool_decide; simpl; tauto.
    + intros now_closed now_updated pid' who. rewrite update_status_run, Hq.
      case_bool_decide; [|simpl; tauto].
      case_bool_decide; [|simpl; tauto].
      rewrite bool_decide_eq_false_2; [simpl; tauto|].
      by intros [[_ ?]|[? _]].
    + intros now_closed now_updated a t Ht Ha.
      rewrite lookup_insert_eq in Ht. injection Ht as <-.
      rewrite update_status_run, Hq, bool_decide_eq_true_2 by done.
      rewrite bool_decide_eq_true_2 by done.
      rewrite bool_decide_eq_true_2 by (by left).
      rewrite load_stored. cbn [snd]. rewrite model_validate_stored.
      unfold model_validate in *. simpl in *.
      destruct (user_brief d uid); [|done].
      destruct (TicketCreate.priority ticket_in); [|done].
      by eexists.
Qed.

Lemma new_ticket_first_steps_witness :
  ∃ out', (update_ticket_status_by_assignee 60 61 12 1 in_progress 1
             (create_ticket ilike_infix 50
                (Sample.request TicketType_worker None None) 1 1 None
                Sample.db).1).2 = inr out'
          ∧ out_status out' = in_progress.
Proof.
  destruct (create_ticket ilike_infix 50
              (Sample.request TicketType_worker None None) 1 1 None Sample.db).2
    as [e|out] eqn:Hres.
  - vm_compute in Hres. discriminate Hres.
  - assert (out_id out = 12) as Hid.
    { vm_compute in Hres. injection Hres as <-. reflexivity. }
    destruct (proj2 (proj2 (proj2
                (new_ticket_first_steps ilike_infix 50
                   (Sample.request TicketType_worker None None) 1 1 None
                   Sample.db out Hres)))
                60 61 1
                (new_row 50 (Sample.request TicketType_worker None None)
                   1 1 1 (Some 1) (Some 7)))
      as (out' & Hout' & _ & Hst).
    + rewrite Hid. reflexivity.
    + reflexivity.
    + exists out'. rewrite Hid in Hout'. split; assumption.
Defined.
